(** * QualifyingComparer: telemetry merging, minisectors and track segments

    A shallow embedding of [src/src/telemetry_comparer.py] (class
    [QualifyingComparer]) and the properties of its merging, segmenting and
    geometry code.

    Modelling conventions.
    - A pandas DataFrame is a list of rows in positional order.  A column that
      is added while the pipeline runs ([Driver], [Minisector],
      [Fastest_driver], [Fastest_driver_int]) is an [option] field: [None]
      stands for an absent (or NaN) cell.
    - A float is a rational ([Q]); comparisons are exact.  The division of
      the total distance by the count rounds to a 53-bit significand
      ([round53]), [//] is the floor of the quotient of its two operands, and
      dividing by zero raises [ZeroDivisionError] as Python floats do.  The
      mean of a group is computed by pandas: it is a parameter of the model
      ([Series_mean]), of which nothing is assumed.
    - An attribute of the object that [__init__] sets to [None] is an
      [option]; using it before it is assigned raises [TypeError].
    - A Python exception is a constructor of [exn]; a method is a function
      from the object state to [result] of the new state.  An exception
      aborts the run: the state of the object at that point is not kept.
    - Row labels (the pandas index) are not modelled: the code uses them only
      through [idxmax] and [loc] on a frame whose labels are its positions.
    - NaN and infinite values of the real-valued columns, and the bounds of
      the exponent of a float, are not modelled. *)

From Stdlib Require Import List ZArith QArith Qround String Bool Lia.
From Stdlib Require Import Sorting.Sorted Sorting.Permutation.
From Stdlib Require Import DecimalString.
Import ListNotations.

Local Open Scope Z_scope.

(** ** Exceptions *)

Inductive exn : Type :=
| TypeError
| ValueError
| ZeroDivisionError
| IndexError.

Inductive result (A : Type) : Type :=
| Ok (a : A)
| Raise (e : exn).

Arguments Ok {A} a.
Arguments Raise {A} e.

Definition bind {A B : Type} (r : result A) (k : A -> result B) : result B :=
  match r with
  | Ok a => k a
  | Raise e => Raise e
  end.

Notation "x <- r ;; k" := (bind r (fun x => k))
  (at level 61, r at next level, right associativity).

Definition fails {A : Type} (r : result A) : Prop := exists e, r = Raise e.

(** ** Data frames *)

(** The columns the telemetry source supplies for one sample. *)
Record Sample : Type := mkSample {
  Distance : Q;
  Speed : Q;
  Throttle : Q;
  Brake : bool;
  nGear : Z;
  RPM : Q;
  DRS : Z;
  X : Q;
  Y : Q
}.

(** One row of a telemetry frame: the supplied columns and the columns the
    pipeline adds. *)
Record Row : Type := mkRow {
  cols : Sample;
  Driver : option string;
  Minisector : option Z;
  Fastest_driver : option string;
  Fastest_driver_int : option Z
}.

Definition DataFrame : Type := list Row.

Definition set_Driver (d : string) (r : Row) : Row :=
  mkRow (cols r) (Some d) (Minisector r) (Fastest_driver r)
        (Fastest_driver_int r).

Definition set_Minisector (m : Z) (r : Row) : Row :=
  mkRow (cols r) (Driver r) (Some m) (Fastest_driver r)
        (Fastest_driver_int r).

Definition set_Fastest_driver (d : string) (r : Row) : Row :=
  mkRow (cols r) (Driver r) (Minisector r) (Some d)
        (Fastest_driver_int r).

Definition set_Fastest_driver_int (i : Z) (r : Row) : Row :=
  mkRow (cols r) (Driver r) (Minisector r) (Fastest_driver r) (Some i).

(** A freshly fetched row: only the supplied columns. *)
Definition raw (s : Sample) : Row := mkRow s None None None None.

(** ** The line collection handed to the renderer *)

Definition point : Type := (Q * Q)%type.

Record LineCollection : Type := mkLineCollection {
  lc_segments : list (point * point);
  lc_array : list (option Z);
  lc_cmap : list (option string);
  lc_linewidth : Z
}.

(** ** Object state *)

Record QualifyingComparer : Type := mkQualifyingComparer {
  driver_1 : string;
  driver_2 : string;
  laps_driver_1_Team : option (list string);
  laps_driver_2_Team : option (list string);
  telemetry_driver_1 : option DataFrame;
  telemetry_driver_2 : option DataFrame;
  team_color_1 : option string;
  team_color_2 : option string;
  __telemetry : option DataFrame;
  line_collection : option LineCollection
}.

Definition with_telemetries (t1 t2 t : DataFrame) (self : QualifyingComparer)
  : QualifyingComparer :=
  mkQualifyingComparer (driver_1 self) (driver_2 self)
    (laps_driver_1_Team self) (laps_driver_2_Team self)
    (Some t1) (Some t2) (team_color_1 self) (team_color_2 self)
    (Some t) (line_collection self).

Definition with_team_colors (c1 c2 : string) (self : QualifyingComparer)
  : QualifyingComparer :=
  mkQualifyingComparer (driver_1 self) (driver_2 self)
    (laps_driver_1_Team self) (laps_driver_2_Team self)
    (telemetry_driver_1 self) (telemetry_driver_2 self) (Some c1) (Some c2)
    (__telemetry self) (line_collection self).

Definition with_minisectors (t : DataFrame) (lc : LineCollection)
  (self : QualifyingComparer) : QualifyingComparer :=
  mkQualifyingComparer (driver_1 self) (driver_2 self)
    (laps_driver_1_Team self) (laps_driver_2_Team self)
    (telemetry_driver_1 self) (telemetry_driver_2 self)
    (team_color_1 self) (team_color_2 self) (Some t) (Some lc).

(** ** [_merge_telemetries] *)

(** [df["Driver"] = d]: the column is written into the frame itself. *)
Definition assign_Driver (d : string) (df : DataFrame) : DataFrame :=
  map (set_Driver d) df.

(** [pd.concat([a, b])]. *)
Definition concat (a b : DataFrame) : DataFrame := a ++ b.

Definition _merge_telemetries (self : QualifyingComparer)
  : result QualifyingComparer :=
  match telemetry_driver_1 self with
  | None => Raise TypeError
  | Some t1 =>
      let t1' := assign_Driver (driver_1 self) t1 in
      match telemetry_driver_2 self with
      | None => Raise TypeError
      | Some t2 =>
          let t2' := assign_Driver (driver_2 self) t2 in
          Ok (with_telemetries t1' t2' (concat t1' t2') self)
      end
  end.

(** ** [_identify_team_colors] *)

(** [series.iloc[0]]. *)
Definition iloc0 {A : Type} (l : list A) : result A :=
  match l with
  | [] => Raise IndexError
  | a :: _ => Ok a
  end.

Definition fallback_color : string := "#D3D3D3".

Section TeamColors.

(** [fastf1.plotting.team_color]: the palette of the plotting library, which
    is not part of this repository.  It is taken as a total function: a
    failure of the lookup inside the library is not modelled. *)
Variable team_color : string -> string.

Definition _identify_team_colors (self : QualifyingComparer)
  : result QualifyingComparer :=
  match laps_driver_1_Team self with
  | None => Raise TypeError
  | Some teams_1 =>
      team_1 <- iloc0 teams_1 ;;
      match laps_driver_2_Team self with
      | None => Raise TypeError
      | Some teams_2 =>
          team_2 <- iloc0 teams_2 ;;
          let color_1 := team_color team_1 in
          if negb (String.eqb team_1 team_2)
          then Ok (with_team_colors color_1 (team_color team_2) self)
          else Ok (with_team_colors color_1 fallback_color self)
      end
  end.

End TeamColors.

(** ** [process_minisectors]: minisector assignment *)

Definition Qltb (a b : Q) : bool := negb (Qle_bool b a).

(** [max(series)]: the first maximal element, [ValueError] on an empty
    series. *)
Fixpoint max_from (m : Q) (l : list Q) : Q :=
  match l with
  | [] => m
  | d :: l' => max_from (if Qltb m d then d else m) l'
  end.

Definition py_max (l : list Q) : result Q :=
  match l with
  | [] => Raise ValueError
  | d :: l' => Ok (max_from d l')
  end.

(** *** Rounding to a float

    A float is a rational with a significand of 53 bits.  [round53] rounds a
    rational to the nearest such number, ties to the even significand, as
    the binary64 operations do; the exponent is not bounded, so overflow to
    infinity and gradual underflow are not modelled. *)

(** The integer nearest to [num / den], ties to even; [den] is positive. *)
Definition round_half_even (num den : Z) : Z :=
  let q := num / den in
  match 2 * (num mod den) ?= den with
  | Lt => q
  | Gt => q + 1
  | Eq => if Z.even q then q else q + 1
  end.

(** The exponent [l] with [2 ^ l <= a / d < 2 ^ (l + 1)], for positive [a]
    and [d]. *)
Definition leading_exponent (a d : Z) : Z :=
  let l := Z.log2 a - Z.log2 d in
  if (if 0 <=? l then d * 2 ^ l <=? a else d <=? a * 2 ^ (- l))
  then l else l - 1.

Definition round53 (x : Q) : Q :=
  let n := Qnum x in
  let d := Zpos (Qden x) in
  if n =? 0 then 0%Q
  else
    let a := Z.abs n in
    let e := leading_exponent a d - 52 in
    if 0 <=? e
    then inject_Z (Z.sgn n * round_half_even a (d * 2 ^ e) * 2 ^ e)
    else Qmake (Z.sgn n * round_half_even (a * 2 ^ (- e)) d)
               (Z.to_pos (2 ^ (- e))).

(** [float(n)] for an integer, as the division of a float by an integer
    converts it. *)
Definition float_of_int (n : Z) : Q := round53 (inject_Z n).

(** [a / b] on floats: the rounded quotient. *)
Definition py_div (a b : Q) : result Q :=
  if Qeq_bool b 0 then Raise ZeroDivisionError else Ok (round53 (a / b)).

(** [a // b] on floats: the floor of the quotient of the two floats, which
    Python computes without rounding error through [fmod]. *)
Definition py_floordiv (a b : Q) : result Z :=
  if Qeq_bool b 0 then Raise ZeroDivisionError else Ok (Qfloor (a / b)).

Definition column_Distance (df : DataFrame) : list Q :=
  map (fun r => Distance (cols r)) df.

(** [lambda dist: int((dist // minisector_length) + 1)]. *)
Definition minisector_of (minisector_length dist : Q) : result Z :=
  q <- py_floordiv dist minisector_length ;;
  Ok (q + 1).

(** [df["Minisector"] = df["Distance"].apply(...)]. *)
Fixpoint apply_Minisector (minisector_length : Q) (df : DataFrame)
  : result DataFrame :=
  match df with
  | [] => Ok []
  | r :: df' =>
      m <- minisector_of minisector_length (Distance (cols r)) ;;
      rest <- apply_Minisector minisector_length df' ;;
      Ok (set_Minisector m r :: rest)
  end.

(** Lines 119-126. *)
Definition assign_minisectors (num_minisectors : Z) (tel : DataFrame)
  : result DataFrame :=
  total_distance <- py_max (column_Distance tel) ;;
  minisector_length <- py_div total_distance (float_of_int num_minisectors) ;;
  apply_Minisector minisector_length tel.

(** ** [process_minisectors]: aggregation *)

(** Group keys of a [groupby]: the distinct keys in ascending order. *)
Section GroupKeys.

Context {K : Type}.
Variables (ltb eqb : K -> K -> bool).

Fixpoint insert_key (k : K) (ks : list K) : list K :=
  match ks with
  | [] => [k]
  | k' :: ks' =>
      if ltb k k' then k :: ks
      else if eqb k k' then ks
      else k' :: insert_key k ks'
  end.

Definition group_keys (ks : list K) : list K :=
  fold_right insert_key [] ks.

End GroupKeys.

Definition key : Type := (Z * string)%type.

Definition key_ltb (a b : key) : bool :=
  (fst a <? fst b) || ((fst a =? fst b) && String.ltb (snd a) (snd b)).

Definition key_eqb (a b : key) : bool :=
  (fst a =? fst b) && String.eqb (snd a) (snd b).

(** Rows whose key has a missing cell are left out of every group. *)
Definition row_key (r : Row) : option key :=
  match Minisector r, Driver r with
  | Some m, Some d => Some (m, d)
  | _, _ => None
  end.

Definition has_key (k : key) (r : Row) : bool :=
  match row_key r with
  | Some k' => key_eqb k k'
  | None => false
  end.

Definition row_keys (df : DataFrame) : list key :=
  flat_map (fun r => match row_key r with Some k => [k] | None => [] end) df.

Definition Qsum (l : list Q) : Q := fold_right Qplus 0%Q l.

(** The arithmetic mean, without rounding. *)
Definition mean (l : list Q) : Q :=
  (Qsum l / inject_Z (Z.of_nat (List.length l)))%Q.

(** The speeds of the samples of driver [d] in minisector [m]. *)
Definition group_speeds (df : DataFrame) (k : key) : list Q :=
  map (fun r => Speed (cols r)) (filter (has_key k) df).

Record AverageSpeed : Type := mkAverageSpeed {
  as_Minisector : Z;
  as_Driver : string;
  as_Speed : Q
}.

(** ** The scenario of the specification *)

Module Scenario.

Definition sample (d v : Z) : Sample :=
  mkSample (inject_Z d) (inject_Z v) 0 false 0 0 0 (inject_Z d) 0.

Definition lap_1 : DataFrame :=
  map raw [sample 0 100; sample 100 200; sample 200 300; sample 300 200;
           sample 400 100].

Definition lap_2 : DataFrame :=
  map raw [sample 0 110; sample 120 190; sample 240 310; sample 360 200;
           sample 480 90].

Definition comparer : QualifyingComparer :=
  mkQualifyingComparer "LEC" "VER" (Some ["Ferrari"%string])
    (Some ["Red Bull Racing"%string]) (Some lap_1) (Some lap_2)
    None None None None.

(** The frame the merger builds from the two laps. *)
Definition merged : DataFrame :=
  assign_Driver "LEC" lap_1 ++ assign_Driver "VER" lap_2.

(** An object whose first lap holds no sample. *)
Definition empty_lap_comparer : QualifyingComparer :=
  mkQualifyingComparer "LEC" "VER" None None (Some []) (Some lap_2)
    None None None None.

End Scenario.

(** Two laps with the same speeds, the reference driver coming second in
    the order of the driver codes. *)
Module Tie.

Definition lap : DataFrame :=
  map raw [Scenario.sample 0 100; Scenario.sample 50 200;
           Scenario.sample 100 300].

Definition comparer : QualifyingComparer :=
  mkQualifyingComparer "VER" "LEC" None None (Some lap) (Some lap)
    None None None None.

End Tie.

(** ** The pipeline, for a given mean *)

Section Pipeline.

(** [Series.mean] of pandas on a group of speeds: the floating-point mean,
    whose summation order and rounding belong to the library. *)
Variable Series_mean : list Q -> Q.

(** [df.groupby(["Minisector", "Driver"])["Speed"].mean().reset_index()]. *)
Definition average_speed (df : DataFrame) : list AverageSpeed :=
  map (fun k =>
         mkAverageSpeed (fst k) (snd k) (Series_mean (group_speeds df k)))
      (group_keys key_ltb key_eqb (row_keys df)).

(** [idxmax]: the first row that holds the maximum. *)
Fixpoint idxmax_from (best : AverageSpeed) (l : list AverageSpeed)
  : AverageSpeed :=
  match l with
  | [] => best
  | a :: l' =>
      idxmax_from (if Qltb (as_Speed best) (as_Speed a) then a else best) l'
  end.

Definition idxmax (g : list AverageSpeed) : option AverageSpeed :=
  match g with
  | [] => None
  | a :: g' => Some (idxmax_from a g')
  end.

Definition minisector_group (avg : list AverageSpeed) (m : Z)
  : list AverageSpeed :=
  filter (fun a => as_Minisector a =? m) avg.

Record FastestDriver : Type := mkFastestDriver {
  fd_Minisector : Z;
  fd_Fastest_driver : string
}.

(** [average_speed.loc[average_speed.groupby(["Minisector"])["Speed"].idxmax()]]
    restricted to the two columns and renamed. *)
Definition fastest_driver (avg : list AverageSpeed) : list FastestDriver :=
  flat_map
    (fun m =>
       match idxmax (minisector_group avg m) with
       | Some a => [mkFastestDriver m (as_Driver a)]
       | None => []
       end)
    (group_keys Z.ltb Z.eqb (map as_Minisector avg)).

(** [__telemetry.merge(fastest_driver, on=["Minisector"])]: inner join, in the
    order of the left frame. *)
Definition merge_on_Minisector (tel : DataFrame) (fd : list FastestDriver)
  : DataFrame :=
  flat_map
    (fun r =>
       match Minisector r with
       | None => []
       | Some m =>
           map (fun f => set_Fastest_driver (fd_Fastest_driver f) r)
               (filter (fun f => fd_Minisector f =? m) fd)
       end)
    tel.

(** [sort_values(by=["Distance"])], as a stable insertion sort: which of two
    rows at the same distance comes first is not fixed by pandas. *)
Fixpoint insert_row (r : Row) (df : DataFrame) : DataFrame :=
  match df with
  | [] => [r]
  | r' :: df' =>
      if Qle_bool (Distance (cols r)) (Distance (cols r'))
      then r :: df
      else r' :: insert_row r df'
  end.

Definition sort_values_Distance (df : DataFrame) : DataFrame :=
  fold_right insert_row [] df.

(** [df.loc[df["Fastest_driver"] == d, "Fastest_driver_int"] = i]. *)
Definition loc_assign_int (d : string) (i : Z) (df : DataFrame) : DataFrame :=
  map (fun r =>
         match Fastest_driver r with
         | Some w => if String.eqb w d then set_Fastest_driver_int i r else r
         | None => r
         end)
      df.

(** Lines 128-155: the winner of every minisector, joined onto the samples. *)
Definition tag_fastest (d1 d2 : string) (tel : DataFrame) : DataFrame :=
  let fastest := fastest_driver (average_speed tel) in
  let tel := merge_on_Minisector tel fastest in
  let tel := sort_values_Distance tel in
  let tel := loc_assign_int d1 1 tel in
  loc_assign_int d2 2 tel.

(** ** [process_minisectors]: geometry *)

Definition points (df : DataFrame) : list point :=
  map (fun r => (X (cols r), Y (cols r))) df.

(** [np.concatenate([points[:-1], points[1:]], axis=1)]. *)
Definition segments (pts : list point) : list (point * point) :=
  combine (removelast pts) (tl pts).

(** Lines 157-173. *)
Definition build_line_collection (c1 c2 : option string) (df : DataFrame)
  : LineCollection :=
  mkLineCollection (segments (points df)) (map Fastest_driver_int df)
                   [c1; c2] 5.

(** ** [process_minisectors] *)

(** The segmenter proper: lines 119-155 on the merged frame. *)
Definition segmenter (num_minisectors : Z) (d1 d2 : string) (tel : DataFrame)
  : result DataFrame :=
  tel <- assign_minisectors num_minisectors tel ;;
  Ok (tag_fastest d1 d2 tel).

Definition process_minisectors (num_minisectors : Z)
  (self : QualifyingComparer) : result QualifyingComparer :=
  self <- _merge_telemetries self ;;
  match __telemetry self with
  | None => Raise TypeError
  | Some tel =>
      tel <- segmenter num_minisectors (driver_1 self) (driver_2 self) tel ;;
      let lc :=
        build_line_collection (team_color_1 self) (team_color_2 self) tel in
      Ok (with_minisectors tel lc self)
  end.

(** ** Relations used in the statements *)

(** The minisector column that the assignment computes when it returns. *)
Definition with_minisector_column (len : Q) (df : DataFrame) : DataFrame :=
  map (fun r => set_Minisector (Qfloor (Distance (cols r) / len) + 1) r) df.

(** Rows in ascending order of distance. *)
Definition Distance_le (r r' : Row) : Prop :=
  (Distance (cols r) <= Distance (cols r'))%Q.

(** The order of the records within a group: by driver code. *)
Definition Driver_lt (a b : AverageSpeed) : Prop :=
  String.ltb (as_Driver a) (as_Driver b) = true.

(** The speed values of the samples of driver [d] that fall in minisector
    [m], in the order of the frame. *)
Fixpoint segment_speeds (df : DataFrame) (m : Z) (d : string) : list Q :=
  match df with
  | [] => []
  | r :: df' =>
      match Minisector r, Driver r with
      | Some m', Some d' =>
          if (m' =? m) && String.eqb d' d
          then Speed (cols r) :: segment_speeds df' m d
          else segment_speeds df' m d
      | _, _ => segment_speeds df' m d
      end
  end.

(** The mean speed of driver [d] in minisector [m], as pandas computes it. *)
Definition mean_speed (df : DataFrame) (m : Z) (d : string) : Q :=
  Series_mean (segment_speeds df m d).


(** The length of a minisector that [process_minisectors] computes from the
    total distance and the count. *)
Definition minisector_length_of (total : Q) (n : Z) : Q :=
  round53 (total / float_of_int n).

(** Driver [d] has a sample in minisector [m]. *)
Definition present (df : DataFrame) (m : Z) (d : string) : Prop :=
  exists r, In r df /\ Minisector r = Some m /\ Driver r = Some d.

(** A row differs from a fetched one in the [Driver] column only. *)
Definition tagged_from (d : string) (r r' : Row) : Prop :=
  cols r' = cols r /\
  Driver r' = Some d /\
  Minisector r' = Minisector r /\
  Fastest_driver r' = Fastest_driver r /\
  Fastest_driver_int r' = Fastest_driver_int r.




(** The object [process_minisectors] leaves behind when it returns, for a
    total distance [total]. *)
Definition run_minisectors (n : Z) (total : Q) (t1 t2 : DataFrame)
  (self : QualifyingComparer) : QualifyingComparer :=
  let t1' := assign_Driver (driver_1 self) t1 in
  let t2' := assign_Driver (driver_2 self) t2 in
  let tel :=
    tag_fastest (driver_1 self) (driver_2 self)
      (with_minisector_column (minisector_length_of total n) (t1' ++ t2')) in
  with_minisectors tel
    (build_line_collection (team_color_1 self) (team_color_2 self) tel)
    (with_telemetries t1' t2' (t1' ++ t2') self).

(** ** [__init__] *)

(** The attributes that [__init__] copies from its arguments and that no
    method above reads. *)
Record Settings : Type := mkSettings {
  grand_prix : string;
  year : Z;
  cache_path : string
}.

Definition default_path_to_cache : string := "data_cache/".

(** [__init__]: [drivers[0]] and [drivers[1]] are read, every attribute that
    is loaded or computed later starts as [None]. *)
Definition __init__ (drivers : list string) (grand_prix : string) (year : Z)
  (path_to_cache : option string) : result (QualifyingComparer * Settings) :=
  match drivers with
  | d1 :: d2 :: _ =>
      Ok (mkQualifyingComparer d1 d2 None None None None None None None None,
          mkSettings grand_prix year
            (match path_to_cache with
             | Some p => p
             | None => default_path_to_cache
             end))
  | _ => Raise IndexError
  end.

(** ** Where the figures are saved *)

(** [f"{year}"] for an integer. *)
Definition format_int (z : Z) : string := NilZero.string_of_int (Z.to_int z).

(** The directory computed by [compare_telemetry] and [compare_minisectors]:
    [cwd] is [os.getcwd()], [event_name] is [session.event.EventName]. *)
Definition results_directory (cwd : string) (path : option string)
  (year : Z) (event_name : string) : string :=
  ((match path with
    | None => cwd
    | Some p => p
    end)
   ++ "/Results/" ++ format_int year ++ " " ++ event_name
   ++ "/Qualifying/")%string.

(** The argument of [plt.savefig] in [compare_telemetry]. *)
Definition telemetry_figure (dir : string) (self : QualifyingComparer)
  : string :=
  (dir ++ "Telemetry_Comparison_" ++ driver_1 self ++ "_" ++ driver_2 self
   ++ ".png")%string.

(** The argument of [plt.savefig] in [compare_minisectors]. *)
Definition minisector_figure (dir : string) (self : QualifyingComparer)
  : string :=
  (dir ++ "Minisector_Comparison_" ++ driver_1 self ++ "_" ++ driver_2 self
   ++ ".png")%string.

(** ** Further relations used in the statements *)

(** Rows in ascending order of minisector. *)
Definition Minisector_le (r r' : Row) : Prop :=
  match Minisector r, Minisector r' with
  | Some m, Some m' => m <= m'
  | _, _ => False
  end.

(** The records of [average_speed] in ascending order of minisector, and of
    driver code within a minisector. *)
Definition AverageSpeed_lt (a b : AverageSpeed) : Prop :=
  key_ltb (as_Minisector a, as_Driver a) (as_Minisector b, as_Driver b)
  = true.



(** A palette with one colour per team. *)
Definition two_palette (team : string) : string :=
  if String.eqb team "Ferrari" then "#dc0000" else "#0600ef".

(** A driver compared with themself. *)
Definition self_comparer : QualifyingComparer :=
  mkQualifyingComparer "LEC" "LEC" None None (Some Scenario.lap_1)
    (Some Scenario.lap_1) None None None None.

(** * Properties *)

(** ** The merger *)

Lemma length_assign_Driver d df :
  List.length (assign_Driver d df) = List.length df.
Proof. apply length_map. Qed.

Lemma cols_assign_Driver d df : map cols (assign_Driver d df) = map cols df.
Proof.
  unfold assign_Driver. rewrite map_map. apply map_ext. reflexivity.
Qed.

Lemma Driver_assign_Driver d df r :
  In r (assign_Driver d df) -> Driver r = Some d.
Proof.
  unfold assign_Driver. rewrite in_map_iff.
  intros [r0 [<- _]]. reflexivity.
Qed.

Lemma merge_telemetries_Ok self t1 t2 :
  telemetry_driver_1 self = Some t1 ->
  telemetry_driver_2 self = Some t2 ->
  _merge_telemetries self =
  Ok (with_telemetries (assign_Driver (driver_1 self) t1)
        (assign_Driver (driver_2 self) t2)
        (assign_Driver (driver_1 self) t1 ++ assign_Driver (driver_2 self) t2)
        self).
Proof.
  intros H1 H2. unfold _merge_telemetries. rewrite H1, H2. reflexivity.
Qed.

(** C3.  The merged frame holds the samples of the first lap followed by the
    samples of the second lap, unchanged and in order; its length is the sum
    of the two lengths, and the row at position [i] carries [driver_1] when
    [i] falls in the first lap and [driver_2] otherwise. *)
Theorem merge_telemetries_concat self t1 t2 :
  telemetry_driver_1 self = Some t1 ->
  telemetry_driver_2 self = Some t2 ->
  exists self' merged,
    _merge_telemetries self = Ok self' /\
    __telemetry self' = Some merged /\
    List.length merged = (List.length t1 + List.length t2)%nat /\
    map cols merged = map cols t1 ++ map cols t2 /\
    (forall i r, nth_error merged i = Some r ->
       Driver r = Some (if (i <? List.length t1)%nat
                        then driver_1 self else driver_2 self)).
Proof.
  intros H1 H2.
  exists (with_telemetries (assign_Driver (driver_1 self) t1)
            (assign_Driver (driver_2 self) t2)
            (assign_Driver (driver_1 self) t1
               ++ assign_Driver (driver_2 self) t2) self).
  eexists. split; [now apply merge_telemetries_Ok|].
  split; [reflexivity|].
  split; [now rewrite length_app, !length_assign_Driver|].
  split; [now rewrite map_app, !cols_assign_Driver|].
  intros i r Hi.
  destruct (Nat.ltb_spec i (List.length t1)) as [Hlt|Hge].
  - rewrite nth_error_app1 in Hi by now rewrite length_assign_Driver.
    eapply Driver_assign_Driver, nth_error_In, Hi.
  - rewrite nth_error_app2 in Hi by now rewrite length_assign_Driver.
    eapply Driver_assign_Driver, nth_error_In, Hi.
Qed.

Lemma merge_telemetries_concat_witness :
  exists self' merged,
    _merge_telemetries Scenario.comparer = Ok self' /\
    __telemetry self' = Some merged /\
    List.length merged = (5 + 5)%nat /\
    map cols merged = map cols Scenario.lap_1 ++ map cols Scenario.lap_2 /\
    (forall i r, nth_error merged i = Some r ->
       Driver r = Some (if (i <? 5)%nat then "LEC" else "VER")%string).
Proof.
  exact (merge_telemetries_concat Scenario.comparer Scenario.lap_1
           Scenario.lap_2 eq_refl eq_refl).
Defined.

(** C4, as stated, fails: with an empty first lap the merger returns. *)
Lemma merge_telemetries_empty_returns :
  ~ fails (_merge_telemetries Scenario.empty_lap_comparer).
Proof. intros [e He]. discriminate He. Qed.

(** C4, amended.  When a lap is empty the merger does not fail: it returns
    the concatenation of the two tagged laps, which then holds exactly the
    tagged samples of the other lap. *)
Theorem merge_telemetries_empty self t1 t2 :
  telemetry_driver_1 self = Some t1 ->
  telemetry_driver_2 self = Some t2 ->
  t1 = [] \/ t2 = [] ->
  exists self',
    _merge_telemetries self = Ok self' /\
    __telemetry self' =
      Some (assign_Driver (driver_1 self) t1
              ++ assign_Driver (driver_2 self) t2) /\
    (t1 = [] -> __telemetry self' = Some (assign_Driver (driver_2 self) t2)) /\
    (t2 = [] -> __telemetry self' = Some (assign_Driver (driver_1 self) t1)).
Proof.
  intros H1 H2 _. eexists.
  split; [exact (merge_telemetries_Ok self t1 t2 H1 H2)|].
  split; [reflexivity|].
  split; intros ->; simpl; [reflexivity|now rewrite app_nil_r].
Qed.

Lemma merge_telemetries_empty_witness :
  exists self',
    _merge_telemetries Scenario.empty_lap_comparer = Ok self' /\
    __telemetry self' = Some ([] ++ assign_Driver "VER" Scenario.lap_2) /\
    (@nil Row = [] ->
     __telemetry self' = Some (assign_Driver "VER" Scenario.lap_2)) /\
    (Scenario.lap_2 = [] -> __telemetry self' = Some []).
Proof.
  exact (merge_telemetries_empty Scenario.empty_lap_comparer [] Scenario.lap_2
           eq_refl eq_refl (or_introl eq_refl)).
Defined.

(** C10, as stated, fails: after the merger has run, the first lap held by
    the object is no longer the lap that was fetched. *)
Lemma merge_telemetries_mutates_lap :
  exists self',
    _merge_telemetries Scenario.comparer = Ok self' /\
    telemetry_driver_1 self' <> telemetry_driver_1 Scenario.comparer.
Proof.
  eexists. split; [reflexivity|]. discriminate.
Qed.

Lemma assign_Driver_tagged d df :
  Forall2 (tagged_from d) df (assign_Driver d df).
Proof.
  induction df as [|r df IH]; simpl; constructor; [|exact IH].
  repeat split.
Qed.

(** C10, amended.  The merger writes the [Driver] column into the two laps
    held by the object and changes nothing else: every row keeps its
    position and all its other columns, and the remaining attributes of the
    object other than the merged frame are untouched. *)
Theorem merge_telemetries_frame self t1 t2 :
  telemetry_driver_1 self = Some t1 ->
  telemetry_driver_2 self = Some t2 ->
  exists self' t1' t2',
    _merge_telemetries self = Ok self' /\
    telemetry_driver_1 self' = Some t1' /\
    telemetry_driver_2 self' = Some t2' /\
    Forall2 (tagged_from (driver_1 self)) t1 t1' /\
    Forall2 (tagged_from (driver_2 self)) t2 t2' /\
    driver_1 self' = driver_1 self /\
    driver_2 self' = driver_2 self /\
    laps_driver_1_Team self' = laps_driver_1_Team self /\
    laps_driver_2_Team self' = laps_driver_2_Team self /\
    team_color_1 self' = team_color_1 self /\
    team_color_2 self' = team_color_2 self /\
    line_collection self' = line_collection self.
Proof.
  intros H1 H2. do 3 eexists.
  split; [exact (merge_telemetries_Ok self t1 t2 H1 H2)|].
  simpl. repeat split; apply assign_Driver_tagged.
Qed.

Lemma merge_telemetries_frame_witness :
  exists self' t1' t2',
    _merge_telemetries Scenario.comparer = Ok self' /\
    telemetry_driver_1 self' = Some t1' /\
    telemetry_driver_2 self' = Some t2' /\
    Forall2 (tagged_from "LEC") Scenario.lap_1 t1' /\
    Forall2 (tagged_from "VER") Scenario.lap_2 t2' /\
    driver_1 self' = "LEC"%string /\
    driver_2 self' = "VER"%string /\
    laps_driver_1_Team self' = Some ["Ferrari"%string] /\
    laps_driver_2_Team self' = Some ["Red Bull Racing"%string] /\
    team_color_1 self' = None /\
    team_color_2 self' = None /\
    line_collection self' = None.
Proof.
  exact (merge_telemetries_frame Scenario.comparer Scenario.lap_1
           Scenario.lap_2 eq_refl eq_refl).
Defined.

(** ** The team colours *)




(** ** The geometry *)

Lemma length_segments pts :
  List.length (segments pts) = (List.length pts - 1)%nat.
Proof.
  unfold segments. rewrite length_combine.
  destruct pts as [|p pts]; [reflexivity|].
  rewrite removelast_firstn_len, length_firstn. simpl. lia.
Qed.

Lemma nth_error_removelast {A : Type} (l : list A) i :
  (S i < List.length l)%nat ->
  nth_error (removelast l) i = nth_error l i.
Proof.
  revert i. induction l as [|a l IH]; intros i Hi; simpl in Hi; [lia|].
  destruct l as [|b l]; [simpl in Hi; lia|].
  change (removelast (a :: b :: l)) with (a :: removelast (b :: l)).
  destruct i as [|i]; [reflexivity|].
  change (nth_error (removelast (b :: l)) i = nth_error (b :: l) i).
  apply IH. simpl in *. lia.
Qed.

Lemma nth_error_combine {A B : Type} (l : list A) (l' : list B) i a b :
  nth_error l i = Some a ->
  nth_error l' i = Some b ->
  nth_error (combine l l') i = Some (a, b).
Proof.
  revert l' i. induction l as [|x l IH]; intros [|y l'] [|i]; simpl;
    try discriminate.
  - now intros [= ->] [= ->].
  - apply IH.
Qed.

Lemma nth_error_segments pts i p q :
  nth_error pts i = Some p ->
  nth_error pts (S i) = Some q ->
  nth_error (segments pts) i = Some (p, q).
Proof.
  intros Hp Hq. unfold segments. apply nth_error_combine.
  - rewrite nth_error_removelast; [exact Hp|].
    apply nth_error_Some. rewrite Hq. discriminate.
  - destruct pts; [destruct i; discriminate|exact Hq].
Qed.

(** C6.  From a frame of [n] rows the geometry builder makes [n - 1]
    segments; the segment at position [i] joins the point of row [i] to the
    point of row [i + 1], and the value the colour array holds at [i] is the
    winner code of row [i].  A frame of at most one row gives no segment. *)
Theorem build_line_collection_segments c1 c2 (df : DataFrame) :
  let lc := build_line_collection c1 c2 df in
  List.length (lc_segments lc) = (List.length df - 1)%nat /\
  (forall i r r',
     nth_error df i = Some r ->
     nth_error df (S i) = Some r' ->
     nth_error (lc_segments lc) i =
       Some ((X (cols r), Y (cols r)), (X (cols r'), Y (cols r'))) /\
     nth_error (lc_array lc) i = Some (Fastest_driver_int r)) /\
  ((List.length df <= 1)%nat -> lc_segments lc = []).
Proof.
  unfold build_line_collection. cbn [lc_segments lc_array].
  split; [|split].
  - unfold points. now rewrite length_segments, length_map.
  - intros i r r' Hr Hr'. split.
    + apply nth_error_segments; unfold points;
        [now rewrite nth_error_map, Hr|now rewrite nth_error_map, Hr'].
    + now rewrite nth_error_map, Hr.
  - intros Hlen. destruct df as [|r [|r' df]]; [reflexivity|reflexivity|].
    simpl in Hlen. lia.
Qed.

(** ** Rounding *)

Lemma round_half_even_ge num den : num / den <= round_half_even num den.
Proof.
  unfold round_half_even.
  destruct (2 * (num mod den) ?= den); [destruct (Z.even (num / den))| |];
    lia.
Qed.

Lemma round_half_even_pos num den :
  0 < den -> den <= num -> 0 < round_half_even num den.
Proof.
  intros Hden Hnum.
  pose proof (round_half_even_ge num den) as Hge.
  assert (0 < num / den) by (apply Z.div_str_pos; lia). lia.
Qed.

Lemma leading_exponent_le a d :
  leading_exponent a d <= Z.log2 a - Z.log2 d.
Proof.
  unfold leading_exponent.
  destruct (if 0 <=? Z.log2 a - Z.log2 d then _ else _); lia.
Qed.

Lemma leading_exponent_ge a d :
  Z.log2 a - Z.log2 d - 1 <= leading_exponent a d.
Proof.
  unfold leading_exponent.
  destruct (if 0 <=? Z.log2 a - Z.log2 d then _ else _); lia.
Qed.

(** Scaled by the chosen power of two, the number is at least one. *)
Lemma scaled_ge_one a d e :
  0 < a -> 0 < d -> e = leading_exponent a d - 52 ->
  (0 <= e -> d * 2 ^ e <= a) /\ (e < 0 -> d <= a * 2 ^ (- e)).
Proof.
  intros Ha Hd He.
  pose proof (leading_exponent_le a d) as Hle.
  pose proof (leading_exponent_ge a d) as Hge.
  destruct (Z.log2_spec a Ha) as [Ha1 Ha2].
  destruct (Z.log2_spec d Hd) as [Hd1 Hd2].
  pose proof (Z.log2_nonneg a) as Hla.
  pose proof (Z.log2_nonneg d) as Hld.
  split; intros Hsign.
  - assert (H1 : 2 ^ e <= 2 ^ (Z.log2 a - Z.log2 d - 52))
      by (apply Z.pow_le_mono_r; lia).
    assert (H2 : 2 ^ Z.succ (Z.log2 d) * 2 ^ (Z.log2 a - Z.log2 d - 52)
                 = 2 ^ (Z.log2 a - 51)).
    { rewrite <- Z.pow_add_r by lia. f_equal. lia. }
    assert (H3 : 2 ^ (Z.log2 a - 51) <= 2 ^ Z.log2 a)
      by (apply Z.pow_le_mono_r; lia).
    assert (H4 : 0 < 2 ^ e) by (apply Z.pow_pos_nonneg; lia).
    nia.
  - assert (H1 : 2 ^ (52 - (Z.log2 a - Z.log2 d)) <= 2 ^ (- e))
      by (apply Z.pow_le_mono_r; lia).
    assert (H2 : 2 ^ Z.log2 a * 2 ^ (52 - (Z.log2 a - Z.log2 d))
                 = 2 ^ (Z.log2 d + 52)).
    { rewrite <- Z.pow_add_r by lia. f_equal. lia. }
    assert (H3 : 2 ^ Z.succ (Z.log2 d) <= 2 ^ (Z.log2 d + 52))
      by (apply Z.pow_le_mono_r; lia).
    assert (H4 : 0 < 2 ^ (52 - (Z.log2 a - Z.log2 d)))
      by (apply Z.pow_pos_nonneg; lia).
    nia.
Qed.

(** Rounding keeps the sign. *)
Lemma round53_sign x :
  ((0 < x -> 0 < round53 x) /\ (x < 0 -> round53 x < 0))%Q.
Proof.
  destruct x as [n d]. unfold round53, Qlt. cbn [Qnum Qden].
  rewrite !Z.mul_1_r. change (0 * Z.pos d) with 0.
  destruct (Z.eqb_spec n 0) as [E|E]; [subst; split; intros H; lia|].
  set (e := leading_exponent (Z.abs n) (Z.pos d) - 52).
  destruct (scaled_ge_one (Z.abs n) (Z.pos d) e) as [Hnn Hneg];
    [lia|lia|reflexivity|].
  destruct (Z.leb_spec 0 e) as [He|He]; cbn [Qnum Qden inject_Z].
  - assert (Hp : 0 < 2 ^ e) by (apply Z.pow_pos_nonneg; lia).
    assert (Hm : 0 < round_half_even (Z.abs n) (Z.pos d * 2 ^ e))
      by (apply round_half_even_pos; [nia|now apply Hnn]).
    split; intros H.
    + rewrite Z.sgn_pos by lia. nia.
    + rewrite Z.sgn_neg by lia. nia.
  - assert (Hm : 0 < round_half_even (Z.abs n * 2 ^ (- e)) (Z.pos d))
      by (apply round_half_even_pos; [lia|now apply Hneg]).
    split; intros H.
    + rewrite Z.sgn_pos by lia. nia.
    + rewrite Z.sgn_neg by lia. nia.
Qed.

Lemma round53_zero x : x == 0 -> round53 x = 0%Q.
Proof.
  intros H. unfold round53.
  assert (E : Qnum x = 0) by (unfold Qeq in H; simpl in H; lia).
  now rewrite E.
Qed.

Lemma round53_nonzero x : ~ x == 0 -> ~ round53 x == 0.
Proof.
  intros Hx H. destruct (round53_sign x) as [Hpos Hneg].
  destruct (Q_dec x 0) as [[Hlt|Hgt]|Heq]; [| |contradiction].
  - specialize (Hneg Hlt). rewrite H in Hneg. now apply Qlt_irrefl in Hneg.
  - specialize (Hpos Hgt). rewrite H in Hpos. now apply Qlt_irrefl in Hpos.
Qed.

(** ** Minisector assignment *)

Lemma py_div_Ok a b : ~ b == 0 -> py_div a b = Ok (round53 (a / b)).
Proof.
  intros Hb. unfold py_div.
  destruct (Qeq_bool b 0) eqn:E; [|reflexivity].
  apply Qeq_bool_iff in E. contradiction.
Qed.

Lemma py_div_zero a b : b == 0 -> py_div a b = Raise ZeroDivisionError.
Proof.
  intros Hb. unfold py_div.
  apply Qeq_bool_iff in Hb. now rewrite Hb.
Qed.

Lemma py_floordiv_Ok a b : ~ b == 0 -> py_floordiv a b = Ok (Qfloor (a / b)).
Proof.
  intros Hb. unfold py_floordiv.
  destruct (Qeq_bool b 0) eqn:E; [|reflexivity].
  apply Qeq_bool_iff in E. contradiction.
Qed.

Lemma apply_Minisector_Ok len df :
  ~ len == 0 -> apply_Minisector len df = Ok (with_minisector_column len df).
Proof.
  intros Hlen. induction df as [|r df IH]; [reflexivity|].
  simpl. unfold minisector_of. rewrite py_floordiv_Ok by exact Hlen.
  simpl. rewrite IH. reflexivity.
Qed.

Lemma inject_Z_nonzero n : n <> 0 -> ~ inject_Z n == 0.
Proof.
  intros Hn H. apply Hn. unfold Qeq in H. simpl in H. lia.
Qed.

Lemma float_of_int_nonzero n : n <> 0 -> ~ float_of_int n == 0.
Proof.
  intros Hn. apply round53_nonzero. now apply inject_Z_nonzero.
Qed.

Lemma float_of_int_pos n : 0 < n -> (0 < float_of_int n)%Q.
Proof.
  intros Hn. apply round53_sign. unfold Qlt. simpl. lia.
Qed.

Lemma Qdiv_nonzero a b : ~ a == 0 -> ~ b == 0 -> ~ (a / b == 0)%Q.
Proof.
  intros Ha Hb H. apply Ha.
  rewrite <- (Qmult_div_r a b) by exact Hb. rewrite H. ring.
Qed.

Lemma minisector_length_nonzero total n :
  ~ total == 0 -> n <> 0 -> ~ minisector_length_of total n == 0.
Proof.
  intros Ht Hn. apply round53_nonzero.
  apply Qdiv_nonzero; [exact Ht|now apply float_of_int_nonzero].
Qed.

Lemma minisector_length_pos total n :
  (0 < total)%Q -> 0 < n -> (0 < minisector_length_of total n)%Q.
Proof.
  intros Ht Hn. apply round53_sign.
  apply Qlt_shift_div_l; [now apply float_of_int_pos|].
  now rewrite Qmult_0_l.
Qed.

Lemma assign_minisectors_Ok n tel total :
  py_max (column_Distance tel) = Ok total ->
  n <> 0 ->
  ~ total == 0 ->
  assign_minisectors n tel =
  Ok (with_minisector_column (minisector_length_of total n) tel).
Proof.
  intros Hmax Hn Ht. unfold assign_minisectors. rewrite Hmax. simpl.
  rewrite py_div_Ok by now apply float_of_int_nonzero. simpl.
  apply apply_Minisector_Ok. now apply minisector_length_nonzero.
Qed.

Lemma assign_minisectors_zero tel total :
  py_max (column_Distance tel) = Ok total ->
  assign_minisectors 0 tel = Raise ZeroDivisionError.
Proof.
  intros Hmax. unfold assign_minisectors. rewrite Hmax. reflexivity.
Qed.

(** When the length is the quotient itself, the sample at the total distance
    falls one past the requested count. *)
Lemma minisector_at_total len total n :
  ~ total == 0 -> n <> 0 -> len == total / inject_Z n ->
  Qfloor (total / len) + 1 = n + 1.
Proof.
  intros Ht Hn Hlen. f_equal.
  assert (E : (total / len == inject_Z n)%Q).
  { rewrite Hlen. field. split; [now apply inject_Z_nonzero|exact Ht]. }
  rewrite E. apply Qfloor_Z.
Qed.


Lemma max_from_In l : forall m, In (max_from m l) (m :: l).
Proof.
  induction l as [|d l IH]; intros m; simpl; [now left|].
  destruct (IH (if Qltb m d then d else m)) as [H|H].
  - destruct (Qltb m d); [right; left; exact H|left; exact H].
  - right. right. exact H.
Qed.

Lemma py_max_In l m : py_max l = Ok m -> In m l.
Proof.
  destruct l as [|d l]; simpl; [discriminate|].
  intros [= <-]. apply max_from_In.
Qed.

(** For every positive count for which the division of the total distance
    is exact, some sample sits at the total distance, and every such sample
    gets the identifier one past the count. *)
Lemma assign_minisectors_overflow n tel total :
  0 < n ->
  py_max (column_Distance tel) = Ok total ->
  ~ total == 0 ->
  minisector_length_of total n == total / inject_Z n ->
  exists tel',
    assign_minisectors n tel = Ok tel' /\
    (exists r, In r tel' /\ Distance (cols r) = total) /\
    (forall r, In r tel' -> Distance (cols r) == total ->
       Minisector r = Some (n + 1)).
Proof.
  intros Hn Hmax Ht Hexact. assert (Hn0 : n <> 0) by lia.
  eexists. split; [exact (assign_minisectors_Ok n tel total Hmax Hn0 Ht)|].
  split.
  - apply py_max_In in Hmax. unfold column_Distance in Hmax.
    apply in_map_iff in Hmax. destruct Hmax as (r & Hd & Hr).
    exists (set_Minisector
              (Qfloor (Distance (cols r) / minisector_length_of total n) + 1)
              r).
    split; [|exact Hd].
    unfold with_minisector_column.
    apply (in_map (fun r0 => set_Minisector
             (Qfloor (Distance (cols r0) / minisector_length_of total n) + 1)
             r0)).
    exact Hr.
  - intros r' Hr' Hd. unfold with_minisector_column in Hr'.
    apply in_map_iff in Hr'. destruct Hr' as (r & <- & _).
    change (Distance (cols r) == total) in Hd.
    change (Some (Qfloor (Distance (cols r) / minisector_length_of total n)
                  + 1) = Some (n + 1)).
    rewrite Hd. f_equal.
    now apply (minisector_at_total _ total n).
Qed.

(** With the default count of 25 and a total distance of 5807, the length
    5807 / 25 rounds up, and the sample at the total distance stays in
    minisector 25. *)
Example minisector_at_total_rounded :
  minisector_length_of (inject_Z 5807) 25
    = Qmake 8172625948793897 35184372088832 /\
  (inject_Z 5807 / inject_Z 25 < minisector_length_of (inject_Z 5807) 25)%Q /\
  minisector_of (minisector_length_of (inject_Z 5807) 25) (inject_Z 5807)
    = Ok 25.
Proof.
  split; [vm_compute; reflexivity|]. split; vm_compute; reflexivity.
Qed.

(** C1.  In the scenario of two laps with distances 0..400 and 0..480 and two
    minisectors, the assignment gives the sample at distance 480 the
    identifier 3: the identifiers are not clamped, and the sample at the
    total distance falls outside the [num_minisectors] sectors into which
    the docstring says the track is split. *)
Theorem scenario_minisectors :
  exists self' merged tel,
    _merge_telemetries Scenario.comparer = Ok self' /\
    __telemetry self' = Some merged /\
    assign_minisectors 2 merged = Ok tel /\
    map (fun r => (Qnum (Distance (cols r)), Minisector r)) tel =
      [(0, Some 1); (100, Some 1); (200, Some 1); (300, Some 2);
       (400, Some 2);
       (0, Some 1); (120, Some 1); (240, Some 2); (360, Some 2);
       (480, Some 3)].
Proof.
  do 3 eexists. split; [reflexivity|].
  split; [reflexivity|].
  split; [vm_compute; reflexivity|reflexivity].
Qed.

(** C5, amended.  The count is never validated.  A count of zero makes the
    division [total_distance / num_minisectors] raise [ZeroDivisionError],
    before the minisector column and any aggregate is computed; a negative
    count with a non-zero total distance raises nothing: every sample is
    kept, gets a minisector identifier, and the segmenter returns. *)
Theorem segmenter_nonpositive n d1 d2 tel total :
  n <= 0 ->
  py_max (column_Distance tel) = Ok total ->
  (n = 0 ->
   assign_minisectors n tel = Raise ZeroDivisionError /\
   segmenter n d1 d2 tel = Raise ZeroDivisionError) /\
  (n < 0 -> ~ total == 0 ->
   exists tel',
     assign_minisectors n tel = Ok tel' /\
     map cols tel' = map cols tel /\
     Forall (fun r => Minisector r <> None) tel' /\
     segmenter n d1 d2 tel = Ok (tag_fastest d1 d2 tel')).
Proof.
  intros _ Hmax. split.
  - intros ->. unfold segmenter.
    rewrite (assign_minisectors_zero tel total Hmax). now split.
  - intros Hn Ht. eexists.
    assert (Hn0 : n <> 0) by lia.
    split; [exact (assign_minisectors_Ok n tel total Hmax Hn0 Ht)|].
    split; [|split].
    + unfold with_minisector_column. rewrite map_map. now apply map_ext.
    + unfold with_minisector_column. apply Forall_forall.
      intros r Hr. apply in_map_iff in Hr. destruct Hr as (r0 & <- & _).
      discriminate.
    + unfold segmenter.
      rewrite (assign_minisectors_Ok n tel total Hmax Hn0 Ht). reflexivity.
Qed.

(** ** Group keys *)

Section GroupKeysFacts.

Context {K : Type}.
Variables (ltb eqb : K -> K -> bool).
Hypothesis eqb_eq : forall a b, eqb a b = true -> a = b.

Lemma In_insert_key k ks x :
  In x (insert_key ltb eqb k ks) <-> x = k \/ In x ks.
Proof.
  induction ks as [|k' ks IH]; simpl.
  - intuition congruence.
  - destruct (ltb k k'); [simpl; intuition congruence|].
    destruct (eqb k k') eqn:E.
    + apply eqb_eq in E. subst k'. simpl. intuition congruence.
    + simpl. rewrite IH. intuition congruence.
Qed.

Lemma In_group_keys ks x : In x (group_keys ltb eqb ks) <-> In x ks.
Proof.
  induction ks as [|k ks IH]; simpl; [reflexivity|].
  rewrite In_insert_key, IH. intuition congruence.
Qed.

End GroupKeysFacts.

Lemma key_eqb_eq a b : key_eqb a b = true -> a = b.
Proof.
  destruct a as [m d], b as [m' d']. unfold key_eqb. simpl.
  rewrite andb_true_iff, Z.eqb_eq, String.eqb_eq. now intros [-> ->].
Qed.

Lemma key_eqb_refl a : key_eqb a a = true.
Proof.
  unfold key_eqb. now rewrite Z.eqb_refl, String.eqb_refl.
Qed.

Lemma Z_eqb_eq a b : (a =? b) = true -> a = b.
Proof. apply Z.eqb_eq. Qed.

(** The keys of a group-by on the minisector come out in strictly ascending
    order, hence without repetition. *)
Lemma insert_key_Z_sorted k ks :
  StronglySorted Z.lt ks ->
  StronglySorted Z.lt (insert_key Z.ltb Z.eqb k ks).
Proof.
  induction 1 as [|k' ks Hs IH Hall]; simpl; [repeat constructor|].
  destruct (Z.ltb_spec k k') as [Hlt|Hge].
  - constructor; [now constructor|].
    constructor; [exact Hlt|].
    eapply Forall_impl; [|exact Hall]. intros; lia.
  - destruct (Z.eqb_spec k k') as [Heq|Hne]; [now constructor|].
    constructor; [exact IH|].
    apply Forall_forall. intros x Hx.
    apply (In_insert_key Z.ltb Z.eqb Z_eqb_eq) in Hx.
    destruct Hx as [->|Hx]; [lia|].
    rewrite Forall_forall in Hall. now apply Hall.
Qed.

Lemma group_keys_Z_sorted ks :
  StronglySorted Z.lt (group_keys Z.ltb Z.eqb ks).
Proof.
  induction ks as [|k ks IH]; simpl; [constructor|].
  now apply insert_key_Z_sorted.
Qed.

Lemma StronglySorted_lt_NoDup ks : StronglySorted Z.lt ks -> NoDup ks.
Proof.
  induction 1 as [|k ks Hs IH Hall]; constructor; [|exact IH].
  intros Hin. rewrite Forall_forall in Hall.
  specialize (Hall k Hin). lia.
Qed.

(** ** Mean speeds and their maximum *)

Lemma Qltb_true a b : Qltb a b = true -> (a < b)%Q.
Proof.
  unfold Qltb. rewrite negb_true_iff. intros H.
  apply Qnot_le_lt. intros Hle. apply Qle_bool_iff in Hle. congruence.
Qed.

Lemma Qltb_false a b : Qltb a b = false -> (b <= a)%Q.
Proof.
  unfold Qltb. rewrite negb_false_iff. apply Qle_bool_iff.
Qed.

(** Where [idxmax] stops: every row before it is strictly slower, no row
    after it is faster. *)
Lemma idxmax_from_split l : forall best,
  exists before after,
    best :: l = before ++ idxmax_from best l :: after /\
    Forall (fun a => (as_Speed a < as_Speed (idxmax_from best l))%Q) before /\
    Forall (fun a => (as_Speed a <= as_Speed (idxmax_from best l))%Q) after.
Proof.
  induction l as [|a l IH]; intros best; simpl.
  - exists [], []. repeat split; constructor.
  - destruct (Qltb (as_Speed best) (as_Speed a)) eqn:E.
    + apply Qltb_true in E.
      destruct (IH a) as (before & after & Heq & Hb & Ha).
      exists (best :: before), after.
      split; [simpl; now rewrite Heq|].
      split; [|exact Ha].
      constructor; [|exact Hb].
      eapply Qlt_le_trans; [exact E|].
      destruct before as [|b before]; simpl in Heq.
      * injection Heq as <- _. apply Qle_refl.
      * injection Heq as <- _. inversion Hb; subst. now apply Qlt_le_weak.
    + apply Qltb_false in E.
      destruct (IH best) as (before & after & Heq & Hb & Ha).
      destruct before as [|b before]; simpl in Heq.
      * injection Heq as Hw Hl.
        exists [], (a :: after).
        split; [simpl; now rewrite <- Hw, Hl|].
        split; [constructor|].
        constructor; [now rewrite <- Hw|exact Ha].
      * injection Heq as <- Hl.
        exists (best :: a :: before), after.
        split; [simpl; do 2 f_equal; exact Hl|].
        split; [|exact Ha].
        inversion Hb; subst.
        constructor; [assumption|].
        constructor; [|assumption].
        eapply Qle_lt_trans; [exact E|assumption].
Qed.

Lemma idxmax_split g w :
  idxmax g = Some w ->
  exists before after,
    g = before ++ w :: after /\
    Forall (fun a => (as_Speed a < as_Speed w)%Q) before /\
    Forall (fun a => (as_Speed a <= as_Speed w)%Q) after.
Proof.
  destruct g as [|a g]; simpl; [discriminate|].
  intros [= <-]. apply idxmax_from_split.
Qed.

Lemma idxmax_In g w : idxmax g = Some w -> In w g.
Proof.
  intros H. destruct (idxmax_split g w H) as (before & after & -> & _).
  apply in_elt.
Qed.

Lemma idxmax_max g w a :
  idxmax g = Some w -> In a g -> (as_Speed a <= as_Speed w)%Q.
Proof.
  intros H Ha.
  destruct (idxmax_split g w H) as (before & after & -> & Hb & Hafter).
  rewrite Forall_forall in Hb, Hafter.
  apply in_app_or in Ha. destruct Ha as [Ha|[<-|Ha]].
  - now apply Qlt_le_weak, Hb.
  - apply Qle_refl.
  - now apply Hafter.
Qed.

Lemma idxmax_nonempty g a : In a g -> exists w, idxmax g = Some w.
Proof.
  destruct g as [|b g]; [contradiction|]. intros _. now eexists.
Qed.

(** ** The aggregates *)

Lemma In_row_keys df k :
  In k (row_keys df) <-> exists r, In r df /\ row_key r = Some k.
Proof.
  unfold row_keys. rewrite in_flat_map. split.
  - intros (r & Hr & Hk). exists r. split; [exact Hr|].
    destruct (row_key r) as [k'|]; [|contradiction].
    destruct Hk as [->|[]]. reflexivity.
  - intros (r & Hr & Hk). exists r. split; [exact Hr|].
    rewrite Hk. now left.
Qed.

Lemma row_key_Some r m d :
  row_key r = Some (m, d) <-> Minisector r = Some m /\ Driver r = Some d.
Proof.
  unfold row_key.
  destruct (Minisector r) as [m'|], (Driver r) as [d'|];
    split; try (intros [H1 H2]); try discriminate; try congruence.
  intros [= -> ->]. now split.
Qed.

Lemma present_row_keys df m d : present df m d <-> In (m, d) (row_keys df).
Proof.
  rewrite In_row_keys. unfold present.
  split; intros (r & Hr & H); exists r; (split; [exact Hr|]).
  - now apply row_key_Some.
  - now apply row_key_Some in H.
Qed.

(** The speeds that [groupby] collects for a pair are the speeds of the
    samples of that driver in that minisector. *)
Lemma group_speeds_segment_speeds df m d :
  group_speeds df (m, d) = segment_speeds df m d.
Proof.
  unfold group_speeds. induction df as [|r df IH]; [reflexivity|].
  cbn [filter segment_speeds].
  assert (E : has_key (m, d) r =
              match Minisector r, Driver r with
              | Some m', Some d' => (m' =? m) && String.eqb d' d
              | _, _ => false
              end).
  { unfold has_key, row_key, key_eqb.
    destruct (Minisector r) as [m'|]; [|reflexivity].
    destruct (Driver r) as [d'|]; [|reflexivity].
    simpl. now rewrite (Z.eqb_sym m m'), (String.eqb_sym d d'). }
  rewrite E.
  destruct (Minisector r) as [m'|]; [|exact IH].
  destruct (Driver r) as [d'|]; [|exact IH].
  destruct ((m' =? m) && String.eqb d' d); [|exact IH].
  simpl. now rewrite IH.
Qed.

(** One record of [average_speed] per pair of a minisector and a driver that
    has a sample in it, carrying the mean of the speeds of those samples. *)
Lemma In_average_speed df a :
  In a (average_speed df) <->
  present df (as_Minisector a) (as_Driver a) /\
  a = mkAverageSpeed (as_Minisector a) (as_Driver a)
        (mean_speed df (as_Minisector a) (as_Driver a)).
Proof.
  unfold average_speed. rewrite in_map_iff. split.
  - intros ([m d] & <- & Hk). simpl.
    apply (proj1 (In_group_keys key_ltb key_eqb key_eqb_eq _ _)) in Hk.
    split; [apply present_row_keys; exact Hk|].
    unfold mean_speed. now rewrite group_speeds_segment_speeds.
  - intros [Hp Ha]. exists (as_Minisector a, as_Driver a). split.
    + simpl. rewrite group_speeds_segment_speeds. symmetry. exact Ha.
    + apply (proj2 (In_group_keys key_ltb key_eqb key_eqb_eq _ _)).
      apply present_row_keys. exact Hp.
Qed.

Lemma average_speed_present df m d :
  present df m d ->
  In (mkAverageSpeed m d (mean_speed df m d)) (average_speed df).
Proof.
  intros Hp. apply In_average_speed. simpl. now split.
Qed.

Lemma In_minisector_group avg m a :
  In a (minisector_group avg m) <-> In a avg /\ as_Minisector a = m.
Proof.
  unfold minisector_group. rewrite filter_In, Z.eqb_eq. reflexivity.
Qed.

(** ** The fastest driver of every minisector *)

Lemma fastest_driver_keys_aux avg ms :
  (forall m, In m ms -> In m (map as_Minisector avg)) ->
  map fd_Minisector
    (flat_map
       (fun m =>
          match idxmax (minisector_group avg m) with
          | Some a => [mkFastestDriver m (as_Driver a)]
          | None => []
          end) ms) = ms.
Proof.
  induction ms as [|m ms IH]; intros Hms; [reflexivity|].
  simpl. rewrite map_app, IH by (intros; apply Hms; now right).
  assert (Hm : In m (map as_Minisector avg)) by (apply Hms; now left).
  apply in_map_iff in Hm. destruct Hm as (a & Ha & Hin).
  destruct (idxmax_nonempty (minisector_group avg m) a) as [w Hw].
  { now apply In_minisector_group. }
  rewrite Hw. reflexivity.
Qed.

(** One winner record per minisector that has a sample, in ascending order
    of the minisector. *)
Lemma fastest_driver_keys avg :
  map fd_Minisector (fastest_driver avg) =
  group_keys Z.ltb Z.eqb (map as_Minisector avg).
Proof.
  apply fastest_driver_keys_aux. intros m Hm.
  now apply (proj1 (In_group_keys Z.ltb Z.eqb Z_eqb_eq _ _)) in Hm.
Qed.

Lemma fastest_driver_NoDup avg :
  NoDup (map fd_Minisector (fastest_driver avg)).
Proof.
  rewrite fastest_driver_keys.
  apply StronglySorted_lt_NoDup, group_keys_Z_sorted.
Qed.

Lemma In_fastest_driver avg f :
  In f (fastest_driver avg) ->
  exists a,
    idxmax (minisector_group avg (fd_Minisector f)) = Some a /\
    fd_Fastest_driver f = as_Driver a.
Proof.
  unfold fastest_driver. rewrite in_flat_map. intros (m & _ & Hf).
  destruct (idxmax (minisector_group avg m)) as [a|] eqn:E; [|contradiction].
  destruct Hf as [<-|[]]. simpl. now exists a.
Qed.

Lemma fastest_driver_covers df m d :
  present df m d ->
  exists f, In f (fastest_driver (average_speed df)) /\ fd_Minisector f = m.
Proof.
  intros Hp.
  assert (Hm : In m (map fd_Minisector (fastest_driver (average_speed df)))).
  { rewrite fastest_driver_keys.
    apply (proj2 (In_group_keys Z.ltb Z.eqb Z_eqb_eq _ _)).
    apply in_map_iff. eexists. split; [|apply average_speed_present, Hp].
    reflexivity. }
  apply in_map_iff in Hm. destruct Hm as (f & Hf & Hin). now exists f.
Qed.

(** The winner of a minisector has a sample in it, and no driver with a
    sample in it has a greater mean speed. *)
Lemma fastest_driver_max df f :
  In f (fastest_driver (average_speed df)) ->
  present df (fd_Minisector f) (fd_Fastest_driver f) /\
  forall d, present df (fd_Minisector f) d ->
    (mean_speed df (fd_Minisector f) d
     <= mean_speed df (fd_Minisector f) (fd_Fastest_driver f))%Q.
Proof.
  intros Hf. destruct (In_fastest_driver _ _ Hf) as (a & Ha & Hd).
  pose proof (idxmax_In _ _ Ha) as Hin.
  apply In_minisector_group in Hin. destruct Hin as [Hin Hm].
  apply In_average_speed in Hin. destruct Hin as [Hp Hrec].
  rewrite Hm in Hp, Hrec. rewrite <- Hd in Hp, Hrec.
  split; [exact Hp|].
  intros d Hpd.
  assert (Hle := idxmax_max _ _ (mkAverageSpeed (fd_Minisector f) d
                   (mean_speed df (fd_Minisector f) d)) Ha).
  rewrite Hrec in Hle. simpl in Hle. apply Hle.
  apply In_minisector_group. split; [|reflexivity].
  now apply average_speed_present.
Qed.

(** ** The join and the sort *)

Lemma In_merge_on_Minisector tel fd r' :
  In r' (merge_on_Minisector tel fd) <->
  exists r f,
    In r tel /\ In f fd /\ Minisector r = Some (fd_Minisector f) /\
    r' = set_Fastest_driver (fd_Fastest_driver f) r.
Proof.
  unfold merge_on_Minisector. rewrite in_flat_map. split.
  - intros (r & Hr & Hin).
    destruct (Minisector r) as [m|] eqn:Em; [|contradiction].
    apply in_map_iff in Hin. destruct Hin as (f & <- & Hf).
    apply filter_In in Hf. destruct Hf as [Hf Hm].
    apply Z.eqb_eq in Hm. exists r, f. now rewrite Hm.
  - intros (r & f & Hr & Hf & Hm & ->). exists r. split; [exact Hr|].
    rewrite Hm.
    apply (in_map (fun f0 => set_Fastest_driver (fd_Fastest_driver f0) r)).
    apply filter_In. split; [exact Hf|]. apply Z.eqb_refl.
Qed.

Lemma filter_key_singleton {A : Type} (key : A -> Z) l x :
  NoDup (map key l) -> In x l ->
  filter (fun y => key y =? key x) l = [x].
Proof.
  induction l as [|y l IH]; intros Hnd Hx; [contradiction|].
  simpl in Hnd. inversion Hnd as [|? ? Hnotin Hnd']; subst.
  assert (Hnone : forall l', ~ In (key x) (map key l') ->
            filter (fun y => key y =? key x) l' = []).
  { induction l' as [|z l' IHl']; intros Hz; [reflexivity|]. simpl.
    destruct (Z.eqb_spec (key z) (key x)) as [E|E].
    - exfalso. apply Hz. left. exact E.
    - apply IHl'. intros H. apply Hz. now right. }
  simpl. destruct Hx as [->|Hx].
  - rewrite Z.eqb_refl. f_equal. now apply Hnone.
  - destruct (Z.eqb_spec (key y) (key x)) as [E|E].
    + exfalso. apply Hnotin. rewrite E. now apply in_map.
    + now apply IH.
Qed.

(** When every row has its minisector among the winner records, the join
    keeps every row once and in place. *)
Lemma merge_on_Minisector_cols tel fd :
  NoDup (map fd_Minisector fd) ->
  (forall r, In r tel ->
     exists f, In f fd /\ Minisector r = Some (fd_Minisector f)) ->
  map cols (merge_on_Minisector tel fd) = map cols tel.
Proof.
  intros Hnd. induction tel as [|r tel IH]; intros Hall; [reflexivity|].
  unfold merge_on_Minisector in *. simpl. rewrite map_app.
  rewrite IH by (intros; apply Hall; now right).
  destruct (Hall r (or_introl eq_refl)) as (f & Hf & Hm).
  rewrite Hm.
  rewrite (filter_key_singleton fd_Minisector fd f Hnd Hf). reflexivity.
Qed.

Lemma insert_row_perm r df : Permutation (insert_row r df) (r :: df).
Proof.
  induction df as [|r' df IH]; simpl; [reflexivity|].
  destruct (Qle_bool _ _); [reflexivity|].
  rewrite IH. apply perm_swap.
Qed.

Lemma sort_values_Distance_perm df :
  Permutation (sort_values_Distance df) df.
Proof.
  induction df as [|r df IH]; simpl; [reflexivity|].
  rewrite insert_row_perm. now apply perm_skip.
Qed.

Lemma Distance_le_trans a b c :
  Distance_le a b -> Distance_le b c -> Distance_le a c.
Proof. unfold Distance_le. apply Qle_trans. Qed.

Lemma insert_row_sorted r df :
  StronglySorted Distance_le df ->
  StronglySorted Distance_le (insert_row r df).
Proof.
  induction 1 as [|r' df Hs IH Hall]; simpl; [repeat constructor|].
  destruct (Qle_bool (Distance (cols r)) (Distance (cols r'))) eqn:E.
  - apply Qle_bool_iff in E.
    constructor; [now constructor|].
    constructor; [exact E|].
    eapply Forall_impl; [|exact Hall].
    intros a Ha. eapply Distance_le_trans; [exact E|exact Ha].
  - constructor; [exact IH|].
    assert (Hr : Distance_le r' r).
    { unfold Distance_le. apply Qlt_le_weak, Qnot_le_lt.
      intros Hle. apply Qle_bool_iff in Hle. congruence. }
    apply Forall_forall. intros a Ha.
    apply (Permutation_in _ (insert_row_perm r df)) in Ha.
    destruct Ha as [<-|Ha]; [exact Hr|].
    rewrite Forall_forall in Hall. now apply Hall.
Qed.

Lemma sort_values_Distance_sorted df :
  StronglySorted Distance_le (sort_values_Distance df).
Proof.
  induction df as [|r df IH]; simpl; [constructor|].
  now apply insert_row_sorted.
Qed.

Lemma StronglySorted_map_cols (f : Row -> Row) df :
  (forall r, cols (f r) = cols r) ->
  StronglySorted Distance_le df ->
  StronglySorted Distance_le (map f df).
Proof.
  intros Hf. induction 1 as [|r df Hs IH Hall]; simpl; constructor.
  - exact IH.
  - apply Forall_forall. intros a Ha.
    apply in_map_iff in Ha. destruct Ha as (b & <- & Hb).
    rewrite Forall_forall in Hall. specialize (Hall b Hb).
    unfold Distance_le in *. now rewrite !Hf.
Qed.

Lemma cols_loc_assign_int d i r :
  cols (match Fastest_driver r with
        | Some w => if String.eqb w d then set_Fastest_driver_int i r else r
        | None => r
        end) = cols r.
Proof.
  destruct (Fastest_driver r) as [w|]; [|reflexivity].
  now destruct (String.eqb w d).
Qed.

Lemma map_cols_loc_assign_int d i df :
  map cols (loc_assign_int d i df) = map cols df.
Proof.
  unfold loc_assign_int. rewrite map_map. apply map_ext.
  intros r. apply cols_loc_assign_int.
Qed.

Lemma loc_assign_int_sorted d i df :
  StronglySorted Distance_le df ->
  StronglySorted Distance_le (loc_assign_int d i df).
Proof.
  apply StronglySorted_map_cols. intros r. apply cols_loc_assign_int.
Qed.

(** The frame that leaves the segmenter is in ascending order of distance. *)
Lemma tag_fastest_sorted d1 d2 tel :
  StronglySorted Distance_le (tag_fastest d1 d2 tel).
Proof.
  unfold tag_fastest.
  do 2 apply loc_assign_int_sorted. apply sort_values_Distance_sorted.
Qed.

Lemma In_loc_assign_int d i df r' :
  In r' (loc_assign_int d i df) ->
  exists r, In r df /\ cols r' = cols r /\ Driver r' = Driver r /\
    Minisector r' = Minisector r /\ Fastest_driver r' = Fastest_driver r.
Proof.
  unfold loc_assign_int. rewrite in_map_iff. intros (r & <- & Hr).
  exists r. split; [exact Hr|].
  destruct (Fastest_driver r) as [w|] eqn:E; [|now rewrite E].
  destruct (String.eqb w d); simpl; now rewrite E.
Qed.

(** Every row that leaves the segmenter is a row of the frame with its
    minisector, tagged with the winner recorded for that minisector. *)
Lemma In_tag_fastest d1 d2 tel r' :
  In r' (tag_fastest d1 d2 tel) ->
  exists r f,
    In r tel /\ In f (fastest_driver (average_speed tel)) /\
    cols r' = cols r /\ Driver r' = Driver r /\
    Minisector r' = Some (fd_Minisector f) /\
    Minisector r = Some (fd_Minisector f) /\
    Fastest_driver r' = Some (fd_Fastest_driver f).
Proof.
  unfold tag_fastest. intros H.
  apply In_loc_assign_int in H. destruct H as (r2 & H & Hc2 & Hd2 & Hm2 & Hf2).
  apply In_loc_assign_int in H. destruct H as (r1 & H & Hc1 & Hd1 & Hm1 & Hf1).
  apply (Permutation_in _ (sort_values_Distance_perm _)) in H.
  apply In_merge_on_Minisector in H.
  destruct H as (r & f & Hr & Hf & Hm & ->).
  exists r, f. simpl in *.
  repeat split; try assumption; congruence.
Qed.

(** ** The whole method *)

Lemma column_Distance_assign_Driver d df :
  column_Distance (assign_Driver d df) = column_Distance df.
Proof.
  unfold column_Distance, assign_Driver. rewrite map_map. reflexivity.
Qed.

Lemma column_Distance_merged d1 d2 t1 t2 :
  column_Distance (assign_Driver d1 t1 ++ assign_Driver d2 t2) =
  column_Distance (t1 ++ t2).
Proof.
  unfold column_Distance at 1. rewrite map_app.
  fold (column_Distance (assign_Driver d1 t1)).
  fold (column_Distance (assign_Driver d2 t2)).
  rewrite !column_Distance_assign_Driver.
  unfold column_Distance. now rewrite map_app.
Qed.

Lemma segmenter_Ok n d1 d2 tel total :
  py_max (column_Distance tel) = Ok total ->
  n <> 0 ->
  ~ total == 0 ->
  segmenter n d1 d2 tel =
  Ok (tag_fastest d1 d2
        (with_minisector_column (minisector_length_of total n) tel)).
Proof.
  intros Hmax Hn Ht. unfold segmenter.
  now rewrite (assign_minisectors_Ok n tel total Hmax Hn Ht).
Qed.

Lemma process_minisectors_Ok n self t1 t2 total :
  telemetry_driver_1 self = Some t1 ->
  telemetry_driver_2 self = Some t2 ->
  py_max (column_Distance (t1 ++ t2)) = Ok total ->
  n <> 0 ->
  ~ total == 0 ->
  process_minisectors n self =
  Ok (run_minisectors n total t1 t2 self).
Proof.
  intros H1 H2 Hmax Hn Ht. unfold process_minisectors.
  rewrite (merge_telemetries_Ok self t1 t2 H1 H2). simpl.
  rewrite (segmenter_Ok n _ _ _ total); [reflexivity| |exact Hn|exact Ht].
  now rewrite column_Distance_merged.
Qed.

Lemma In_with_minisector_column len df r' :
  In r' (with_minisector_column len df) ->
  exists r, In r df /\ cols r' = cols r /\ Driver r' = Driver r /\
    Minisector r' = Some (Qfloor (Distance (cols r) / len) + 1).
Proof.
  unfold with_minisector_column. rewrite in_map_iff.
  intros (r & <- & Hr). exists r. now repeat split.
Qed.

Lemma map_cols_with_minisector_column len df :
  map cols (with_minisector_column len df) = map cols df.
Proof.
  unfold with_minisector_column. rewrite map_map. now apply map_ext.
Qed.

(** In a frame where every row carries a driver, the segmenter keeps every
    sample. *)
Lemma tag_fastest_perm d1 d2 tel :
  (forall r, In r tel ->
     exists m d, Minisector r = Some m /\ Driver r = Some d) ->
  Permutation (map cols (tag_fastest d1 d2 tel)) (map cols tel).
Proof.
  intros Hall. unfold tag_fastest.
  rewrite !map_cols_loc_assign_int.
  rewrite (Permutation_map cols (sort_values_Distance_perm _)).
  rewrite merge_on_Minisector_cols; [reflexivity|apply fastest_driver_NoDup|].
  intros r Hr. destruct (Hall r Hr) as (m & d & Hm & Hd).
  destruct (fastest_driver_covers tel m d) as (f & Hf & Hfm).
  { now exists r. }
  exists f. split; [exact Hf|]. now rewrite Hfm.
Qed.

Lemma merged_rows_keyed len d1 d2 t1 t2 r :
  In r (with_minisector_column len
          (assign_Driver d1 t1 ++ assign_Driver d2 t2)) ->
  exists m d, Minisector r = Some m /\ Driver r = Some d.
Proof.
  intros Hr. apply In_with_minisector_column in Hr.
  destruct Hr as (r0 & Hr0 & _ & Hd & Hm).
  rewrite Hm, Hd.
  apply in_app_or in Hr0.
  destruct Hr0 as [H|H]; apply Driver_assign_Driver in H; rewrite H;
    now do 2 eexists.
Qed.

(** C7.  When the method returns, the frame it leaves in the object, from
    which the line collection is built, is in ascending order of distance,
    and holds every sample of the two laps. *)
Theorem process_minisectors_sorted n self t1 t2 total :
  telemetry_driver_1 self = Some t1 ->
  telemetry_driver_2 self = Some t2 ->
  py_max (column_Distance (t1 ++ t2)) = Ok total ->
  n <> 0 ->
  ~ total == 0 ->
  exists self' tel,
    process_minisectors n self = Ok self' /\
    __telemetry self' = Some tel /\
    line_collection self' =
      Some (build_line_collection (team_color_1 self) (team_color_2 self)
              tel) /\
    StronglySorted Distance_le tel /\
    Permutation (map cols tel) (map cols t1 ++ map cols t2).
Proof.
  intros H1 H2 Hmax Hn Ht. do 2 eexists.
  split; [exact (process_minisectors_Ok n self t1 t2 total H1 H2 Hmax Hn Ht)|].
  split; [reflexivity|]. split; [reflexivity|].
  split; [apply tag_fastest_sorted|].
  rewrite tag_fastest_perm by apply merged_rows_keyed.
  rewrite map_cols_with_minisector_column, map_app, !cols_assign_Driver.
  reflexivity.
Qed.

(** ** The order of the groups *)

Section GroupKeysOrder.

Context {K : Type}.
Variables (ltb eqb : K -> K -> bool).
Hypothesis eqb_eq : forall a b, eqb a b = true -> a = b.
Hypothesis ltb_trans :
  forall a b c, ltb a b = true -> ltb b c = true -> ltb a c = true.
Hypothesis ltb_connected :
  forall a b, ltb a b = false -> eqb a b = false -> ltb b a = true.

Lemma insert_key_sorted k ks :
  StronglySorted (fun a b => ltb a b = true) ks ->
  StronglySorted (fun a b => ltb a b = true) (insert_key ltb eqb k ks).
Proof.
  induction 1 as [|k' ks Hs IH Hall]; simpl; [repeat constructor|].
  destruct (ltb k k') eqn:Elt.
  - constructor; [now constructor|].
    constructor; [exact Elt|].
    eapply Forall_impl; [|exact Hall].
    intros a Ha. now apply (ltb_trans k k' a).
  - destruct (eqb k k') eqn:Eeq; [now constructor|].
    constructor; [exact IH|].
    apply Forall_forall. intros x Hx.
    apply (proj1 (In_insert_key ltb eqb eqb_eq _ _ _)) in Hx.
    destruct Hx as [->|Hx]; [now apply ltb_connected|].
    rewrite Forall_forall in Hall. now apply Hall.
Qed.

Lemma group_keys_sorted ks :
  StronglySorted (fun a b => ltb a b = true) (group_keys ltb eqb ks).
Proof.
  induction ks as [|k ks IH]; simpl; [constructor|].
  now apply insert_key_sorted.
Qed.

End GroupKeysOrder.

Lemma ascii_compare_refl a : Ascii.compare a a = Eq.
Proof. unfold Ascii.compare. apply N.compare_refl. Qed.

Lemma ascii_compare_lt_trans a b c :
  Ascii.compare a b = Lt -> Ascii.compare b c = Lt -> Ascii.compare a c = Lt.
Proof.
  unfold Ascii.compare. rewrite !N.compare_lt_iff. apply N.lt_trans.
Qed.

Lemma string_compare_lt_trans s1 : forall s2 s3,
  String.compare s1 s2 = Lt -> String.compare s2 s3 = Lt ->
  String.compare s1 s3 = Lt.
Proof.
  induction s1 as [|a s1 IH]; intros [|b s2] [|c s3]; simpl;
    try discriminate; try reflexivity.
  destruct (Ascii.compare a b) eqn:Eab; try discriminate;
    destruct (Ascii.compare b c) eqn:Ebc; try discriminate; intros H1 H2.
  - apply Ascii.compare_eq_iff in Eab, Ebc. subst.
    rewrite ascii_compare_refl. now apply (IH s2).
  - apply Ascii.compare_eq_iff in Eab. subst. now rewrite Ebc.
  - apply Ascii.compare_eq_iff in Ebc. subst. now rewrite Eab.
  - now rewrite (ascii_compare_lt_trans a b c).
Qed.

Lemma string_ltb_trans a b c :
  String.ltb a b = true -> String.ltb b c = true -> String.ltb a c = true.
Proof.
  unfold String.ltb.
  destruct (String.compare a b) eqn:E1; try discriminate.
  destruct (String.compare b c) eqn:E2; try discriminate.
  now rewrite (string_compare_lt_trans a b c E1 E2).
Qed.

Lemma string_ltb_connected a b :
  String.ltb a b = false -> String.eqb a b = false -> String.ltb b a = true.
Proof.
  unfold String.ltb. rewrite (String.compare_antisym b a).
  destruct (String.compare a b) eqn:E; simpl; try discriminate.
  - apply String.compare_eq_iff in E. subst.
    now rewrite String.eqb_refl.
  - reflexivity.
Qed.

Lemma key_ltb_trans a b c :
  key_ltb a b = true -> key_ltb b c = true -> key_ltb a c = true.
Proof.
  destruct a as [m1 d1], b as [m2 d2], c as [m3 d3]. unfold key_ltb. simpl.
  rewrite !orb_true_iff, !andb_true_iff, !Z.ltb_lt, !Z.eqb_eq.
  intros [H1|[E1 L1]] [H2|[E2 L2]].
  - left. lia.
  - left. lia.
  - left. lia.
  - right. split; [lia|]. now apply (string_ltb_trans d1 d2 d3).
Qed.

Lemma key_ltb_connected a b :
  key_ltb a b = false -> key_eqb a b = false -> key_ltb b a = true.
Proof.
  destruct a as [m1 d1], b as [m2 d2]. unfold key_ltb, key_eqb. simpl.
  rewrite orb_false_iff, orb_true_iff, !andb_true_iff, Z.ltb_lt, Z.eqb_eq.
  intros [Hlt Hand] Heq.
  apply Z.ltb_ge in Hlt.
  destruct (Z.eqb_spec m1 m2) as [E|E].
  - right. split; [now symmetry|].
    simpl in Hand, Heq. now apply string_ltb_connected.
  - left. lia.
Qed.

Lemma StronglySorted_filter {A : Type} (R : A -> A -> Prop) p l :
  StronglySorted R l -> StronglySorted R (filter p l).
Proof.
  induction 1 as [|a l Hs IH Hall]; simpl; [constructor|].
  destruct (p a); [|exact IH].
  constructor; [exact IH|].
  apply Forall_forall. intros x Hx. apply filter_In in Hx.
  rewrite Forall_forall in Hall. now apply Hall.
Qed.

Lemma StronglySorted_map {A B : Type} (R : A -> A -> Prop)
  (R' : B -> B -> Prop) (f : A -> B) l :
  (forall a b, R a b -> R' (f a) (f b)) ->
  StronglySorted R l -> StronglySorted R' (map f l).
Proof.
  intros Hf. induction 1 as [|a l Hs IH Hall]; simpl; constructor.
  - exact IH.
  - apply Forall_forall. intros x Hx.
    apply in_map_iff in Hx. destruct Hx as (b & <- & Hb).
    rewrite Forall_forall in Hall. now apply Hf, Hall.
Qed.

Lemma StronglySorted_weaken {A : Type} (R R' : A -> A -> Prop) l :
  (forall a b, In a l -> In b l -> R a b -> R' a b) ->
  StronglySorted R l -> StronglySorted R' l.
Proof.
  intros Himp Hs. induction Hs as [|a l Hs IH Hall]; constructor.
  - apply IH. intros x y Hx Hy. apply Himp; now right.
  - apply Forall_forall. intros x Hx.
    rewrite Forall_forall in Hall.
    apply Himp; [now left|now right|now apply Hall].
Qed.

(** The records of one minisector come in strictly ascending order of the
    driver code. *)
Lemma minisector_group_sorted df m :
  StronglySorted Driver_lt (minisector_group (average_speed df) m).
Proof.
  apply (StronglySorted_weaken
           (fun a b => key_ltb (as_Minisector a, as_Driver a)
                         (as_Minisector b, as_Driver b) = true)).
  - intros a b Ha Hb. apply In_minisector_group in Ha, Hb.
    destruct Ha as [_ Ha], Hb as [_ Hb].
    unfold key_ltb, Driver_lt. simpl. rewrite Ha, Hb.
    rewrite Z.ltb_irrefl, Z.eqb_refl. simpl. trivial.
  - unfold minisector_group. apply StronglySorted_filter.
    unfold average_speed.
    apply (StronglySorted_map (fun a b => key_ltb a b = true)).
    + intros [m1 d1] [m2 d2] H. exact H.
    + apply (group_keys_sorted key_ltb key_eqb key_eqb_eq key_ltb_trans
               key_ltb_connected).
Qed.

(** ** The winner of a minisector *)



(** ** Running the method again *)

Lemma assign_Driver_idempotent d df :
  assign_Driver d (assign_Driver d df) = assign_Driver d df.
Proof.
  unfold assign_Driver. rewrite map_map. now apply map_ext.
Qed.

Lemma run_minisectors_again n total t1 t2 self :
  run_minisectors n total
    (assign_Driver (driver_1 self) t1) (assign_Driver (driver_2 self) t2)
    (run_minisectors n total t1 t2 self) =
  run_minisectors n total t1 t2 self.
Proof.
  unfold run_minisectors. cbn [driver_1 driver_2 team_color_1 team_color_2
    laps_driver_1_Team laps_driver_2_Team with_minisectors with_telemetries].
  rewrite !assign_Driver_idempotent. reflexivity.
Qed.

(** C8.  When the method returns for a positive count, running it again on
    the object it left gives the same object, hence the same winners; and in
    every minisector the winner is the first record of its group that holds
    the greatest mean speed: the records of the group come in ascending
    order of the driver code and those before the winner are strictly
    slower, so among drivers with equal mean speeds the first in the group
    order is picked. *)
Theorem process_minisectors_idempotent n self t1 t2 total :
  telemetry_driver_1 self = Some t1 ->
  telemetry_driver_2 self = Some t2 ->
  py_max (column_Distance (t1 ++ t2)) = Ok total ->
  0 < n ->
  ~ total == 0 ->
  exists self' tel',
    process_minisectors n self = Ok self' /\
    process_minisectors n self' = Ok self' /\
    assign_minisectors n
      (assign_Driver (driver_1 self) t1 ++ assign_Driver (driver_2 self) t2)
      = Ok tel' /\
    forall f, In f (fastest_driver (average_speed tel')) ->
      StronglySorted Driver_lt
        (minisector_group (average_speed tel') (fd_Minisector f)) /\
      exists before a after,
        minisector_group (average_speed tel') (fd_Minisector f) =
          before ++ a :: after /\
        as_Driver a = fd_Fastest_driver f /\
        Forall (fun b => (as_Speed b < as_Speed a)%Q) before /\
        Forall (fun b => (as_Speed b <= as_Speed a)%Q) after.
Proof.
  intros H1 H2 Hmax Hn Ht.
  assert (Hn0 : n <> 0) by lia.
  exists (run_minisectors n total t1 t2 self). eexists.
  split; [exact (process_minisectors_Ok n self t1 t2 total H1 H2 Hmax Hn0 Ht)|].
  split.
  - rewrite (process_minisectors_Ok n (run_minisectors n total t1 t2 self)
               (assign_Driver (driver_1 self) t1)
               (assign_Driver (driver_2 self) t2) total);
      try reflexivity; try assumption.
    + f_equal. apply (run_minisectors_again n total t1 t2 self).
    + rewrite <- Hmax. f_equal.
      unfold column_Distance. rewrite !map_app.
      fold (column_Distance (assign_Driver (driver_1 self) t1)).
      fold (column_Distance (assign_Driver (driver_2 self) t2)).
      now rewrite !column_Distance_assign_Driver.
  - split.
    + apply (assign_minisectors_Ok n _ total); [|exact Hn0|exact Ht].
      now rewrite column_Distance_merged.
    + intros f Hf. split; [apply minisector_group_sorted|].
      destruct (In_fastest_driver _ _ Hf) as (a & Ha & Hd).
      destruct (idxmax_split _ _ Ha) as (before & after & Heq & Hb & Hafter).
      exists before, a, after. now repeat split.
Qed.

(** * Further properties of the code *)

(** ** The total distance *)

Lemma max_from_ge l : forall m,
  (m <= max_from m l)%Q /\ Forall (fun d => (d <= max_from m l)%Q) l.
Proof.
  induction l as [|d l IH]; intros m; simpl.
  - split; [apply Qle_refl|constructor].
  - destruct (IH (if Qltb m d then d else m)) as [Hm Hall].
    destruct (Qltb m d) eqn:E.
    + apply Qltb_true in E. split.
      * eapply Qle_trans; [apply Qlt_le_weak, E|exact Hm].
      * constructor; [exact Hm|exact Hall].
    + apply Qltb_false in E. split; [exact Hm|].
      constructor; [|exact Hall].
      eapply Qle_trans; [exact E|exact Hm].
Qed.

(** X1.  [max] of a non-empty column returns one of its values, and no value
    of the column is greater; on an empty column it raises [ValueError]. *)
Theorem py_max_greatest l :
  (l = [] -> py_max l = Raise ValueError) /\
  (l <> [] ->
   exists m,
     py_max l = Ok m /\ In m l /\ Forall (fun d => (d <= m)%Q) l).
Proof.
  split; [now intros ->|].
  destruct l as [|d l]; [congruence|]. intros _.
  exists (max_from d l). split; [reflexivity|].
  split; [apply max_from_In|].
  destruct (max_from_ge l d) as [Hd Hall]. now constructor.
Qed.


(** ** The range and the order of the minisectors *)

Lemma Qfloor_div_monotone len d d' :
  (0 < len)%Q -> (d <= d')%Q -> Qfloor (d / len) <= Qfloor (d' / len).
Proof.
  intros Hlen Hd. apply Qfloor_resp_le.
  unfold Qdiv. apply Qmult_le_compat_r; [exact Hd|].
  apply Qlt_le_weak, Qinv_lt_0_compat, Hlen.
Qed.



Lemma In_tag_fastest_Minisector d1 d2 len tel r :
  In r (tag_fastest d1 d2 (with_minisector_column len tel)) ->
  Minisector r = Some (Qfloor (Distance (cols r) / len) + 1).
Proof.
  intros Hr. apply In_tag_fastest in Hr.
  destruct Hr as (r0 & f & Hr0 & _ & Hc & _ & Hm & Hm0 & _).
  apply In_with_minisector_column in Hr0.
  destruct Hr0 as (r1 & _ & Hc1 & _ & Hm1).
  rewrite Hm, <- Hm0, Hm1, Hc, Hc1. reflexivity.
Qed.

(** X3.  For a positive count and a positive total distance, the frame that
    leaves the segmenter has its minisectors in ascending order: along the
    lap every minisector is one unbroken run of samples. *)
Theorem segmenter_minisectors_ascending n d1 d2 tel total :
  0 < n ->
  py_max (column_Distance tel) = Ok total ->
  (0 < total)%Q ->
  exists out,
    segmenter n d1 d2 tel = Ok out /\
    StronglySorted Minisector_le out.
Proof.
  intros Hn Hmax Ht.
  assert (Hn0 : n <> 0) by lia.
  assert (Ht0 : ~ total == 0).
  { intros E. rewrite E in Ht. now apply Qlt_irrefl in Ht. }
  eexists. split; [exact (segmenter_Ok n d1 d2 tel total Hmax Hn0 Ht0)|].
  apply (StronglySorted_weaken Distance_le); [|apply tag_fastest_sorted].
  intros a b Ha Hb Hab. unfold Minisector_le.
  rewrite (In_tag_fastest_Minisector _ _ _ _ _ Ha).
  rewrite (In_tag_fastest_Minisector _ _ _ _ _ Hb).
  apply Z.add_le_mono_r. apply Qfloor_div_monotone; [|exact Hab].
  now apply minisector_length_pos.
Qed.

(** ** Failures of [process_minisectors] *)

Lemma apply_Minisector_zero len r df :
  len == 0 -> apply_Minisector len (r :: df) = Raise ZeroDivisionError.
Proof.
  intros Hlen. simpl. unfold minisector_of, py_floordiv.
  apply Qeq_bool_iff in Hlen. now rewrite Hlen.
Qed.

(** X4.  [process_minisectors] fails with [TypeError] when a lap was never
    loaded, with [ValueError] when both laps are empty, whatever the count,
    and with [ZeroDivisionError] when the laps hold samples but the total
    distance is zero and the count is not. *)
Theorem process_minisectors_failures n self :
  (telemetry_driver_1 self = None \/ telemetry_driver_2 self = None ->
   process_minisectors n self = Raise TypeError) /\
  (telemetry_driver_1 self = Some [] -> telemetry_driver_2 self = Some [] ->
   process_minisectors n self = Raise ValueError) /\
  (forall t1 t2 total,
     telemetry_driver_1 self = Some t1 ->
     telemetry_driver_2 self = Some t2 ->
     py_max (column_Distance (t1 ++ t2)) = Ok total ->
     total == 0 -> n <> 0 ->
     process_minisectors n self = Raise ZeroDivisionError).
Proof.
  split; [|split].
  - unfold process_minisectors, _merge_telemetries.
    intros [H|H]; rewrite H; [reflexivity|].
    now destruct (telemetry_driver_1 self).
  - intros H1 H2. unfold process_minisectors.
    rewrite (merge_telemetries_Ok self [] [] H1 H2). reflexivity.
  - intros t1 t2 total H1 H2 Hmax Ht Hn. unfold process_minisectors.
    rewrite (merge_telemetries_Ok self t1 t2 H1 H2). simpl.
    unfold segmenter, assign_minisectors.
    rewrite column_Distance_merged, Hmax. simpl.
    rewrite py_div_Ok by now apply float_of_int_nonzero. simpl.
    assert (Hlen : round53 (total / float_of_int n) == 0).
    { rewrite round53_zero; [reflexivity|].
      rewrite Ht. unfold Qdiv. apply Qmult_0_l. }
    destruct (assign_Driver (driver_1 self) t1
                ++ assign_Driver (driver_2 self) t2) as [|r df] eqn:E.
    + apply (f_equal column_Distance) in E.
      rewrite column_Distance_merged in E. rewrite E in Hmax. discriminate.
    + now rewrite (apply_Minisector_zero _ r df Hlen).
Qed.

(** ** The winner codes *)

Lemma In_tag_fastest_int d1 d2 tel r' :
  In r' (tag_fastest d1 d2 tel) ->
  exists w,
    Fastest_driver r' = Some w /\
    (w = d1 \/ w = d2 ->
     Fastest_driver_int r' = Some (if String.eqb w d2 then 2 else 1)).
Proof.
  unfold tag_fastest, loc_assign_int. rewrite in_map_iff.
  intros (r2 & <- & H2). apply in_map_iff in H2.
  destruct H2 as (r1 & <- & H1).
  apply (Permutation_in _ (sort_values_Distance_perm _)) in H1.
  apply In_merge_on_Minisector in H1.
  destruct H1 as (r & f & _ & _ & _ & ->).
  exists (fd_Fastest_driver f). cbn [Fastest_driver set_Fastest_driver].
  destruct (String.eqb_spec (fd_Fastest_driver f) d1) as [E1|E1];
    cbn [Fastest_driver set_Fastest_driver set_Fastest_driver_int];
    destruct (String.eqb_spec (fd_Fastest_driver f) d2) as [E2|E2];
    cbn [Fastest_driver_int Fastest_driver set_Fastest_driver
         set_Fastest_driver_int];
    (split; [reflexivity|]); try reflexivity.
  intros [H|H]; contradiction.
Qed.

Lemma present_merged len d1 d2 t1 t2 m d :
  present (with_minisector_column len
             (assign_Driver d1 t1 ++ assign_Driver d2 t2)) m d ->
  d = d1 \/ d = d2.
Proof.
  intros (r & Hr & _ & Hd). apply In_with_minisector_column in Hr.
  destruct Hr as (r0 & Hr0 & _ & Hd0 & _). rewrite Hd0 in Hd.
  apply in_app_or in Hr0.
  destruct Hr0 as [H|H]; apply Driver_assign_Driver in H; rewrite H in Hd;
    injection Hd as <-; [now left|now right].
Qed.

Lemma merged_rows_codes len d1 d2 t1 t2 r :
  In r (tag_fastest d1 d2
          (with_minisector_column len
             (assign_Driver d1 t1 ++ assign_Driver d2 t2))) ->
  exists w,
    Fastest_driver r = Some w /\
    (w = d1 \/ w = d2) /\
    Fastest_driver_int r = Some (if String.eqb w d2 then 2 else 1).
Proof.
  intros Hr.
  destruct (In_tag_fastest_int _ _ _ _ Hr) as (w & Hw & Hint).
  apply In_tag_fastest in Hr.
  destruct Hr as (r0 & f & _ & Hf & _ & _ & _ & _ & Hw').
  rewrite Hw in Hw'. injection Hw' as ->.
  destruct (fastest_driver_max _ f Hf) as [Hp _].
  apply present_merged in Hp.
  exists (fd_Fastest_driver f). split; [exact Hw|].
  split; [exact Hp|now apply Hint].
Qed.

(** X5.  When the method returns, every row of the frame it leaves names one
    of the two drivers as the fastest of its minisector, and its code is 2
    when that is the second driver and 1 otherwise: the colour array holds
    no undefined value. *)
Theorem process_minisectors_codes n self t1 t2 total :
  telemetry_driver_1 self = Some t1 ->
  telemetry_driver_2 self = Some t2 ->
  py_max (column_Distance (t1 ++ t2)) = Ok total ->
  n <> 0 ->
  ~ total == 0 ->
  exists self' tel lc,
    process_minisectors n self = Ok self' /\
    __telemetry self' = Some tel /\
    line_collection self' = Some lc /\
    (forall r, In r tel ->
       exists w,
         Fastest_driver r = Some w /\
         (w = driver_1 self \/ w = driver_2 self) /\
         Fastest_driver_int r =
           Some (if String.eqb w (driver_2 self) then 2 else 1)) /\
    Forall (fun c => c = Some 1 \/ c = Some 2) (lc_array lc).
Proof.
  intros H1 H2 Hmax Hn Ht. do 3 eexists.
  split; [exact (process_minisectors_Ok n self t1 t2 total H1 H2 Hmax Hn Ht)|].
  split; [reflexivity|]. split; [reflexivity|].
  split; [intros r Hr; exact (merged_rows_codes _ _ _ _ _ r Hr)|].
  cbn [lc_array build_line_collection]. apply Forall_forall.
  intros c Hc. apply in_map_iff in Hc. destruct Hc as (r & <- & Hr).
  destruct (merged_rows_codes _ _ _ _ _ r Hr) as (w & _ & _ & ->).
  destruct (String.eqb w (driver_2 self)); [now right|now left].
Qed.

Lemma NoDup_key_injective {A : Type} (key : A -> Z) l a b :
  NoDup (map key l) -> In a l -> In b l -> key a = key b -> a = b.
Proof.
  intros Hnd Ha Hb Hk.
  pose proof (filter_key_singleton key l b Hnd Hb) as Hf.
  assert (Hin : In a (filter (fun y => key y =? key b) l)).
  { apply filter_In. split; [exact Ha|]. now apply Z.eqb_eq. }
  rewrite Hf in Hin. destruct Hin as [<-|[]]. reflexivity.
Qed.

(** X6.  In the frame that leaves the segmenter, two rows of the same
    minisector name the same fastest driver and carry the same code: a
    minisector is drawn in one colour. *)
Theorem tag_fastest_one_winner d1 d2 tel r r' :
  In r (tag_fastest d1 d2 tel) ->
  In r' (tag_fastest d1 d2 tel) ->
  Minisector r = Minisector r' ->
  Fastest_driver r = Fastest_driver r' /\
  (forall w, Fastest_driver r = Some w -> w = d1 \/ w = d2 ->
     Fastest_driver_int r = Fastest_driver_int r').
Proof.
  intros Hr Hr' Hm.
  destruct (In_tag_fastest_int _ _ _ _ Hr) as (w & Hw & Hint).
  destruct (In_tag_fastest_int _ _ _ _ Hr') as (w' & Hw' & Hint').
  apply In_tag_fastest in Hr, Hr'.
  destruct Hr as (r0 & f & _ & Hf & _ & _ & Hmf & _ & Hwf).
  destruct Hr' as (r0' & f' & _ & Hf' & _ & _ & Hmf' & _ & Hwf').
  assert (E : f = f').
  { apply (NoDup_key_injective fd_Minisector
             (fastest_driver (average_speed tel)));
      [apply fastest_driver_NoDup|exact Hf|exact Hf'|congruence]. }
  subst f'. split; [congruence|].
  intros w0 Hw0 Hd. assert (w0 = w) by congruence. subst w0.
  assert (w' = w) by congruence. subst w'.
  now rewrite Hint, Hint'.
Qed.

(** ** The polyline *)

Lemma nth_error_combine_inv {A B : Type} (l : list A) (l' : list B) i a b :
  nth_error (combine l l') i = Some (a, b) ->
  nth_error l i = Some a /\ nth_error l' i = Some b.
Proof.
  revert l' i. induction l as [|x l IH]; intros [|y l'] [|i]; simpl;
    try discriminate.
  - intros [= -> ->]. now split.
  - apply IH.
Qed.

Lemma nth_error_removelast_inv {A : Type} (l : list A) i a :
  nth_error (removelast l) i = Some a -> nth_error l i = Some a.
Proof.
  revert i. induction l as [|x l IH]; intros i; [destruct i; discriminate|].
  destruct l as [|y l]; [destruct i; discriminate|].
  change (removelast (x :: y :: l)) with (x :: removelast (y :: l)).
  destruct i as [|i]; [trivial|]. simpl nth_error. apply IH.
Qed.

(** X7.  The segments of the line collection form one unbroken path: each
    segment starts at the point where the segment before it ends.  The
    colour array has one value per row, one more than there are segments
    when the frame is not empty. *)
Theorem build_line_collection_path c1 c2 df :
  let lc := build_line_collection c1 c2 df in
  (forall i p q p' q',
     nth_error (lc_segments lc) i = Some (p, q) ->
     nth_error (lc_segments lc) (S i) = Some (p', q') ->
     q = p') /\
  List.length (lc_array lc) = List.length df /\
  (df <> [] ->
   List.length (lc_array lc) = S (List.length (lc_segments lc))).
Proof.
  unfold build_line_collection. cbn [lc_segments lc_array].
  split; [|split].
  - intros i p q p' q' H1 H2. unfold segments in *.
    apply nth_error_combine_inv in H1, H2.
    destruct H1 as [_ Hq], H2 as [Hp' _].
    apply nth_error_removelast_inv in Hp'.
    destruct (points df) as [|p0 pts]; [destruct i; discriminate|].
    simpl in Hq, Hp'. congruence.
  - apply length_map.
  - intros Hdf. rewrite length_map, length_segments. unfold points.
    rewrite length_map. destruct df; [congruence|simpl; lia].
Qed.

(** ** The team colours *)

(** X8.  When the two drivers are in different teams, each gets the palette
    colour of the own team, and nothing else of the object changes. *)
Theorem identify_team_colors_two_teams
  (team_color : string -> string) self team_1 team_2 rest_1 rest_2 :
  laps_driver_1_Team self = Some (team_1 :: rest_1) ->
  laps_driver_2_Team self = Some (team_2 :: rest_2) ->
  team_1 <> team_2 ->
  exists self',
    _identify_team_colors team_color self = Ok self' /\
    team_color_1 self' = Some (team_color team_1) /\
    team_color_2 self' = Some (team_color team_2) /\
    driver_1 self' = driver_1 self /\
    driver_2 self' = driver_2 self /\
    laps_driver_1_Team self' = laps_driver_1_Team self /\
    laps_driver_2_Team self' = laps_driver_2_Team self /\
    telemetry_driver_1 self' = telemetry_driver_1 self /\
    telemetry_driver_2 self' = telemetry_driver_2 self /\
    __telemetry self' = __telemetry self /\
    line_collection self' = line_collection self.
Proof.
  intros H1 H2 Hne. unfold _identify_team_colors. rewrite H1, H2. simpl.
  apply String.eqb_neq in Hne. rewrite Hne. simpl.
  eexists. split; [reflexivity|]. simpl. now rewrite H1, H2.
Qed.

Lemma identify_team_colors_two_teams_witness :
  exists self',
    _identify_team_colors two_palette Scenario.comparer = Ok self' /\
    team_color_1 self' = Some (two_palette "Ferrari") /\
    team_color_2 self' = Some (two_palette "Red Bull Racing") /\
    driver_1 self' = driver_1 Scenario.comparer /\
    driver_2 self' = driver_2 Scenario.comparer /\
    laps_driver_1_Team self' = laps_driver_1_Team Scenario.comparer /\
    laps_driver_2_Team self' = laps_driver_2_Team Scenario.comparer /\
    telemetry_driver_1 self' = telemetry_driver_1 Scenario.comparer /\
    telemetry_driver_2 self' = telemetry_driver_2 Scenario.comparer /\
    __telemetry self' = __telemetry Scenario.comparer /\
    line_collection self' = line_collection Scenario.comparer.
Proof.
  apply (identify_team_colors_two_teams two_palette Scenario.comparer
           "Ferrari" "Red Bull Racing" [] []);
    [reflexivity|reflexivity|discriminate].
Defined.

(** X9.  The colours cannot be resolved before the laps are loaded
    ([TypeError]), nor for a driver without a lap in the session
    ([IndexError]), whatever the palette.  The laps of the first driver are
    read first: when they were never loaded or are empty, that is the error
    raised, whatever the state of the laps of the second driver. *)
Theorem identify_team_colors_failures (team_color : string -> string) self :
  (laps_driver_1_Team self = None ->
   _identify_team_colors team_color self = Raise TypeError) /\
  (laps_driver_1_Team self = Some [] ->
   _identify_team_colors team_color self = Raise IndexError) /\
  (forall team_1 rest_1,
     laps_driver_1_Team self = Some (team_1 :: rest_1) ->
     laps_driver_2_Team self = None ->
     _identify_team_colors team_color self = Raise TypeError) /\
  (forall team_1 rest_1,
     laps_driver_1_Team self = Some (team_1 :: rest_1) ->
     laps_driver_2_Team self = Some [] ->
     _identify_team_colors team_color self = Raise IndexError).
Proof.
  unfold _identify_team_colors. repeat split.
  - now intros ->.
  - now intros ->.
  - intros team_1 rest_1 -> H2. simpl. now rewrite H2.
  - intros team_1 rest_1 -> H2. simpl. now rewrite H2.
Qed.

(** ** The records of [average_speed] *)

Lemma string_compare_refl s : String.compare s s = Eq.
Proof.
  induction s as [|a s IH]; simpl; [reflexivity|].
  now rewrite ascii_compare_refl.
Qed.

Lemma key_ltb_irrefl k : key_ltb k k = false.
Proof.
  destruct k as [m d]. unfold key_ltb, String.ltb. simpl.
  now rewrite Z.ltb_irrefl, Z.eqb_refl, string_compare_refl.
Qed.

Lemma StronglySorted_NoDup {A : Type} (R : A -> A -> Prop) l :
  (forall a, ~ R a a) -> StronglySorted R l -> NoDup l.
Proof.
  intros Hirr. induction 1 as [|a l Hs IH Hall]; constructor; [|exact IH].
  intros Hin. rewrite Forall_forall in Hall. exact (Hirr a (Hall a Hin)).
Qed.

(** X10.  [average_speed] holds exactly one record for every pair of a
    minisector and a driver with a sample in it, the record carries the mean
    of the speeds of those samples, and the records come in ascending order
    of the minisector and, within a minisector, of the driver code. *)
Theorem average_speed_records df :
  StronglySorted AverageSpeed_lt (average_speed df) /\
  NoDup (map (fun a => (as_Minisector a, as_Driver a)) (average_speed df)) /\
  (forall m d,
     present df m d <->
     exists a,
       In a (average_speed df) /\ as_Minisector a = m /\ as_Driver a = d) /\
  (forall a, In a (average_speed df) ->
     as_Speed a = mean_speed df (as_Minisector a) (as_Driver a)).
Proof.
  pose proof (group_keys_sorted key_ltb key_eqb key_eqb_eq key_ltb_trans
                key_ltb_connected (row_keys df)) as Hsorted.
  split; [|split; [|split]].
  - unfold average_speed.
    apply (StronglySorted_map (fun a b => key_ltb a b = true));
      [|exact Hsorted].
    intros [m1 d1] [m2 d2] H. exact H.
  - unfold average_speed. rewrite map_map. simpl.
    rewrite (map_ext _ (fun k => k)) by (now intros [m d]).
    rewrite map_id.
    apply (StronglySorted_NoDup (fun a b => key_ltb a b = true));
      [|exact Hsorted].
    intros k H. rewrite key_ltb_irrefl in H. discriminate.
  - intros m d. split.
    + intros Hp. eexists. split; [apply average_speed_present, Hp|].
      now split.
    + intros (a & Ha & <- & <-). now apply In_average_speed in Ha.
  - intros a Ha. apply In_average_speed in Ha. destruct Ha as [_ Ha].
    now rewrite Ha at 1.
Qed.

Lemma has_key_true m d r :
  has_key (m, d) r = true <-> Minisector r = Some m /\ Driver r = Some d.
Proof.
  unfold has_key. rewrite <- row_key_Some.
  destruct (row_key r) as [k|]; split; try discriminate.
  - intros H. apply key_eqb_eq in H. now subst.
  - intros [= ->]. apply key_eqb_refl.
Qed.

Lemma In_group_speeds df m d v :
  In v (group_speeds df (m, d)) <->
  exists r, In r df /\ Minisector r = Some m /\ Driver r = Some d /\
    Speed (cols r) = v.
Proof.
  unfold group_speeds. rewrite in_map_iff. split.
  - intros (r & <- & Hr). apply filter_In in Hr. destruct Hr as [Hr Hk].
    apply has_key_true in Hk. exists r. tauto.
  - intros (r & Hr & Hm & Hd & <-). exists r. split; [reflexivity|].
    apply filter_In. split; [exact Hr|]. now apply has_key_true.
Qed.

(** ** Where the figures are saved *)

Lemma append_cancel_l s : forall a b, (s ++ a = s ++ b)%string -> a = b.
Proof.
  induction s as [|c s IH]; intros a b H; [exact H|].
  simpl in H. injection H as H. now apply IH.
Qed.

(** X12.  The two figures of one comparison are saved under different file
    names in the same directory, whatever the directory and the driver
    codes: saving one never overwrites the other. *)
Theorem figures_distinct cwd path yr event_name self :
  telemetry_figure (results_directory cwd path yr event_name) self <>
  minisector_figure (results_directory cwd path yr event_name) self.
Proof.
  unfold telemetry_figure, minisector_figure. intros H.
  apply append_cancel_l in H. discriminate H.
Qed.

(** ** A new object *)

(** X13.  An object cannot be made from fewer than two driver codes
    ([IndexError]); from two or more, the first two are kept, and calling
    [process_minisectors] or [_identify_team_colors] on the new object,
    before anything is loaded, raises [TypeError]. *)
Theorem init_then_methods (team_color : string -> string)
  drivers gp yr path n :
  ((List.length drivers < 2)%nat ->
   __init__ drivers gp yr path = Raise IndexError) /\
  ((2 <= List.length drivers)%nat ->
   exists self settings,
     __init__ drivers gp yr path = Ok (self, settings) /\
     nth_error drivers 0 = Some (driver_1 self) /\
     nth_error drivers 1 = Some (driver_2 self) /\
     grand_prix settings = gp /\ year settings = yr /\
     process_minisectors n self = Raise TypeError /\
     _identify_team_colors team_color self = Raise TypeError).
Proof.
  destruct drivers as [|d1 [|d2 rest]]; simpl; split; intros H;
    try reflexivity; try lia.
  do 2 eexists. split; [reflexivity|]. now repeat split.
Qed.

(** ** Colours and minisectors together *)

(** X14.  Once the team colours are resolved, [process_minisectors] builds
    the colormap of the line collection from exactly those two colours,
    first driver first, draws the lines five wide, and leaves the colours,
    the teams and the driver codes of the object as they were. *)
Theorem colors_then_minisectors (team_color : string -> string)
  n self team_1 team_2 rest_1 rest_2 t1 t2 total :
  laps_driver_1_Team self = Some (team_1 :: rest_1) ->
  laps_driver_2_Team self = Some (team_2 :: rest_2) ->
  telemetry_driver_1 self = Some t1 ->
  telemetry_driver_2 self = Some t2 ->
  py_max (column_Distance (t1 ++ t2)) = Ok total ->
  n <> 0 ->
  ~ total == 0 ->
  exists self1 self2 lc,
    _identify_team_colors team_color self = Ok self1 /\
    process_minisectors n self1 = Ok self2 /\
    line_collection self2 = Some lc /\
    lc_cmap lc =
      [Some (team_color team_1);
       Some (if String.eqb team_1 team_2
             then fallback_color else team_color team_2)] /\
    lc_linewidth lc = 5 /\
    team_color_1 self2 = team_color_1 self1 /\
    team_color_2 self2 = team_color_2 self1 /\
    laps_driver_1_Team self2 = laps_driver_1_Team self /\
    laps_driver_2_Team self2 = laps_driver_2_Team self /\
    driver_1 self2 = driver_1 self /\
    driver_2 self2 = driver_2 self.
Proof.
  intros HT1 HT2 H1 H2 Hmax Hn Ht.
  unfold _identify_team_colors. rewrite HT1, HT2. simpl.
  destruct (String.eqb team_1 team_2); simpl;
    do 3 eexists; (split; [reflexivity|]);
    (split; [apply (process_minisectors_Ok n _ t1 t2 total);
               [exact H1|exact H2|exact Hmax|exact Hn|exact Ht]|]);
    simpl; now repeat split.
Qed.

(** ** Sizes *)

(** X15.  When the method returns, the frame it leaves has one row per
    sample of the two laps, the colour array one value per sample, and the
    line collection one segment less. *)
Theorem process_minisectors_sizes n self t1 t2 total :
  telemetry_driver_1 self = Some t1 ->
  telemetry_driver_2 self = Some t2 ->
  py_max (column_Distance (t1 ++ t2)) = Ok total ->
  n <> 0 ->
  ~ total == 0 ->
  exists self' tel lc,
    process_minisectors n self = Ok self' /\
    __telemetry self' = Some tel /\
    line_collection self' = Some lc /\
    List.length tel = (List.length t1 + List.length t2)%nat /\
    List.length (lc_array lc) = (List.length t1 + List.length t2)%nat /\
    List.length (lc_segments lc) =
      (List.length t1 + List.length t2 - 1)%nat.
Proof.
  intros H1 H2 Hmax Hn Ht. do 3 eexists.
  split; [exact (process_minisectors_Ok n self t1 t2 total H1 H2 Hmax Hn Ht)|].
  split; [reflexivity|]. split; [reflexivity|].
  assert (Hlen : forall tel,
    Permutation (map cols tel)
      (map cols (with_minisector_column (minisector_length_of total n)
         (assign_Driver (driver_1 self) t1
            ++ assign_Driver (driver_2 self) t2))) ->
    List.length tel = (List.length t1 + List.length t2)%nat).
  { intros tel Hp. apply Permutation_length in Hp.
    rewrite !length_map in Hp. rewrite Hp.
    unfold with_minisector_column.
    now rewrite length_map, length_app, !length_assign_Driver. }
  specialize (Hlen _ (tag_fastest_perm (driver_1 self) (driver_2 self) _
                        (merged_rows_keyed _ _ _ t1 t2))).
  cbn [lc_array lc_segments build_line_collection].
  split; [exact Hlen|].
  split; [now rewrite length_map|].
  unfold points. now rewrite length_segments, length_map, Hlen.
Qed.

(** ** Degenerate comparisons *)

(** X16.  A minisector in which only one driver has samples is won by that
    driver. *)
Theorem lone_driver_wins df f d :
  In f (fastest_driver (average_speed df)) ->
  (forall d', present df (fd_Minisector f) d' -> d' = d) ->
  fd_Fastest_driver f = d.
Proof.
  intros Hf Honly. apply Honly.
  now destruct (fastest_driver_max df f Hf) as [Hw _].
Qed.

(** X17.  When a driver is compared with themself, both codes being equal,
    every row of the frame the method leaves carries the code 2: the whole
    map is drawn in the second colour. *)
Theorem process_minisectors_same_driver n self t1 t2 total :
  telemetry_driver_1 self = Some t1 ->
  telemetry_driver_2 self = Some t2 ->
  py_max (column_Distance (t1 ++ t2)) = Ok total ->
  n <> 0 ->
  ~ total == 0 ->
  driver_1 self = driver_2 self ->
  exists self' lc,
    process_minisectors n self = Ok self' /\
    line_collection self' = Some lc /\
    Forall (fun c => c = Some 2) (lc_array lc).
Proof.
  intros H1 H2 Hmax Hn Ht Hsame. do 2 eexists.
  split; [exact (process_minisectors_Ok n self t1 t2 total H1 H2 Hmax Hn Ht)|].
  split; [reflexivity|].
  cbn [lc_array build_line_collection]. apply Forall_forall.
  intros c Hc. apply in_map_iff in Hc. destruct Hc as (r & <- & Hr).
  destruct (merged_rows_codes _ _ _ _ _ r Hr) as (w & _ & Hw & ->).
  assert (E : w = driver_2 self) by (destruct Hw; congruence).
  subst w. now rewrite String.eqb_refl.
Qed.

End Pipeline.

(** * Evaluations on sample laps

    The pipeline is run with the arithmetic mean [mean]: on the laps used
    here every mean is a number that needs no rounding. *)

(** C5, as stated, fails: with a negative count the whole method returns. *)
Lemma process_minisectors_negative_returns :
  ~ fails (process_minisectors mean (-1) Scenario.comparer).
Proof. intros [e He]. vm_compute in He. discriminate He. Qed.

Lemma segmenter_nonpositive_witness :
  exists tel',
    assign_minisectors (-1) Scenario.merged = Ok tel' /\
    map cols tel' = map cols Scenario.merged /\
    Forall (fun r => Minisector r <> None) tel' /\
    segmenter mean (-1) "LEC" "VER" Scenario.merged =
      Ok (tag_fastest mean "LEC" "VER" tel').
Proof.
  apply (segmenter_nonpositive mean (-1) "LEC" "VER" Scenario.merged
           (inject_Z 480)); [lia|vm_compute; reflexivity|lia|discriminate].
Defined.

Lemma process_minisectors_sorted_witness :
  exists self' tel,
    process_minisectors mean 2 Scenario.comparer = Ok self' /\
    __telemetry self' = Some tel /\
    line_collection self' = Some (build_line_collection None None tel) /\
    StronglySorted Distance_le tel /\
    Permutation (map cols tel)
      (map cols Scenario.lap_1 ++ map cols Scenario.lap_2).
Proof.
  apply (process_minisectors_sorted mean 2 Scenario.comparer Scenario.lap_1
           Scenario.lap_2 (inject_Z 480));
    [reflexivity|reflexivity|vm_compute; reflexivity|lia|discriminate].
Defined.


Lemma process_minisectors_idempotent_witness :
  exists self' tel',
    process_minisectors mean 1 Tie.comparer = Ok self' /\
    process_minisectors mean 1 self' = Ok self' /\
    assign_minisectors 1
      (assign_Driver "VER" Tie.lap ++ assign_Driver "LEC" Tie.lap) = Ok tel' /\
    forall f, In f (fastest_driver (average_speed mean tel')) ->
      StronglySorted Driver_lt
        (minisector_group (average_speed mean tel') (fd_Minisector f)) /\
      exists before a after,
        minisector_group (average_speed mean tel') (fd_Minisector f) =
          before ++ a :: after /\
        as_Driver a = fd_Fastest_driver f /\
        Forall (fun b => (as_Speed b < as_Speed a)%Q) before /\
        Forall (fun b => (as_Speed b <= as_Speed a)%Q) after.
Proof.
  apply (process_minisectors_idempotent mean 1 Tie.comparer Tie.lap Tie.lap
           (inject_Z 100));
    [reflexivity|reflexivity|vm_compute; reflexivity|lia|discriminate].
Defined.

(** With equal mean speeds the winner is the driver whose code comes first
    in the group order, here the second driver of the comparison. *)
Example tie_winner :
  exists tel',
    assign_minisectors 1
      (assign_Driver "VER" Tie.lap ++ assign_Driver "LEC" Tie.lap) = Ok tel' /\
    map (fun a => (as_Minisector a, as_Driver a, Qred (as_Speed a)))
        (average_speed mean tel') =
      [(1, "LEC", 150%Q); (1, "VER", 150%Q);
       (2, "LEC", 300%Q); (2, "VER", 300%Q)]%string /\
    fastest_driver (average_speed mean tel') =
      [mkFastestDriver 1 "LEC"; mkFastestDriver 2 "LEC"].
Proof.
  eexists. split; [vm_compute; reflexivity|].
  split; vm_compute; reflexivity.
Qed.

Lemma segmenter_minisectors_ascending_witness :
  exists out,
    segmenter mean 2 "LEC" "VER" Scenario.merged = Ok out /\
    StronglySorted Minisector_le out.
Proof.
  apply (segmenter_minisectors_ascending mean 2 "LEC" "VER" Scenario.merged
           (inject_Z 480)); [lia|vm_compute; reflexivity|reflexivity].
Defined.

Lemma process_minisectors_codes_witness :
  exists self' tel lc,
    process_minisectors mean 2 Scenario.comparer = Ok self' /\
    __telemetry self' = Some tel /\
    line_collection self' = Some lc /\
    (forall r, In r tel ->
       exists w,
         Fastest_driver r = Some w /\
         (w = "LEC"%string \/ w = "VER"%string) /\
         Fastest_driver_int r = Some (if String.eqb w "VER" then 2 else 1)) /\
    Forall (fun c => c = Some 1 \/ c = Some 2) (lc_array lc).
Proof.
  apply (process_minisectors_codes mean 2 Scenario.comparer Scenario.lap_1
           Scenario.lap_2 (inject_Z 480));
    [reflexivity|reflexivity|vm_compute; reflexivity|lia|discriminate].
Defined.

Lemma tag_fastest_one_winner_witness :
  let r := mkRow (Scenario.sample 0 100) (Some "LEC"%string) (Some 1)
                 (Some "LEC"%string) (Some 1) in
  let r' := mkRow (Scenario.sample 120 190) (Some "VER"%string) (Some 1)
                  (Some "LEC"%string) (Some 1) in
  Fastest_driver r = Fastest_driver r' /\
  (forall w, Fastest_driver r = Some w ->
     w = "LEC"%string \/ w = "VER"%string ->
     Fastest_driver_int r = Fastest_driver_int r').
Proof.
  apply (tag_fastest_one_winner mean "LEC" "VER"
           (with_minisector_column (inject_Z 240) Scenario.merged));
    [vm_compute; tauto|vm_compute; tauto|reflexivity].
Defined.

Lemma colors_then_minisectors_witness :
  exists self1 self2 lc,
    _identify_team_colors two_palette Scenario.comparer = Ok self1 /\
    process_minisectors mean 2 self1 = Ok self2 /\
    line_collection self2 = Some lc /\
    lc_cmap lc =
      [Some (two_palette "Ferrari");
       Some (if String.eqb "Ferrari" "Red Bull Racing"
             then fallback_color else two_palette "Red Bull Racing")] /\
    lc_linewidth lc = 5 /\
    team_color_1 self2 = team_color_1 self1 /\
    team_color_2 self2 = team_color_2 self1 /\
    laps_driver_1_Team self2 = laps_driver_1_Team Scenario.comparer /\
    laps_driver_2_Team self2 = laps_driver_2_Team Scenario.comparer /\
    driver_1 self2 = driver_1 Scenario.comparer /\
    driver_2 self2 = driver_2 Scenario.comparer.
Proof.
  apply (colors_then_minisectors mean two_palette 2 Scenario.comparer
           "Ferrari" "Red Bull Racing" [] [] Scenario.lap_1 Scenario.lap_2
           (inject_Z 480));
    [reflexivity|reflexivity|reflexivity|reflexivity|vm_compute; reflexivity
    |lia|discriminate].
Defined.

Lemma process_minisectors_sizes_witness :
  exists self' tel lc,
    process_minisectors mean 2 Scenario.comparer = Ok self' /\
    __telemetry self' = Some tel /\
    line_collection self' = Some lc /\
    List.length tel = (5 + 5)%nat /\
    List.length (lc_array lc) = (5 + 5)%nat /\
    List.length (lc_segments lc) = (5 + 5 - 1)%nat.
Proof.
  apply (process_minisectors_sizes mean 2 Scenario.comparer Scenario.lap_1
           Scenario.lap_2 (inject_Z 480));
    [reflexivity|reflexivity|vm_compute; reflexivity|lia|discriminate].
Defined.

Lemma lone_driver_wins_witness :
  fd_Fastest_driver (mkFastestDriver 3 "VER") = "VER"%string.
Proof.
  apply (lone_driver_wins mean
           (with_minisector_column (inject_Z 240) Scenario.merged)
           (mkFastestDriver 3 "VER") "VER").
  - vm_compute. right. right. now left.
  - intros d' (r & Hr & Hm & Hd). simpl in Hr.
    repeat (destruct Hr as [<-|Hr]; [try discriminate Hm|]);
      [|contradiction].
    simpl in Hd. now injection Hd as <-.
Defined.

Lemma process_minisectors_same_driver_witness :
  exists self' lc,
    process_minisectors mean 2 self_comparer = Ok self' /\
    line_collection self' = Some lc /\
    Forall (fun c => c = Some 2) (lc_array lc).
Proof.
  apply (process_minisectors_same_driver mean 2 self_comparer Scenario.lap_1
           Scenario.lap_1 (inject_Z 400));
    [reflexivity|reflexivity|vm_compute; reflexivity|lia|discriminate
    |reflexivity].
Defined.
